(** * RaydiumSwap: a shallow embedding of [src/RaydiumSwap.ts]

    The class [RaydiumSwap] is glue code between a remote pool registry
    (a JSON document fetched over HTTP), the Raydium SDK and a Solana node
    connection.  The embedding keeps the three instance fields as a record,
    runs every method in a state-and-exception monad over that record, and
    records each call that leaves the class (HTTP, SDK entry points, node
    RPC) in a log, so that statements such as "one submission, with these
    options" can be read off the log. *)

From Stdlib Require Import String List Bool QArith Lia.
Import ListNotations.
Local Open Scope string_scope.
Local Open Scope list_scope.

Set Implicit Arguments.

(** ** JavaScript values *)

(** JS [number]s are only written as literals or forwarded by this class; no
    arithmetic is performed on them here. *)
Definition number := Q.
Bind Scope Q_scope with number.

(** Exceptions: the language's own [TypeError], and whatever an SDK
    function or a rejected promise raises. *)
Inductive exn : Type :=
| TypeError (msg : string)
| SdkError (msg : string).

Inductive outcome (A : Type) : Type :=
| Ok (a : A)
| Throw (e : exn).
Arguments Throw {A} e.

(** The result of [JSON.parse]. *)
#[warnings="-register-all"]
Inductive json : Type :=
| JNull
| JBool (b : bool)
| JNumber (n : number)
| JString (s : string)
| JArray (l : list json)
| JObject (members : list (string * json)).

(** The four property names the class reads from parsed JSON. *)
Inductive field : Type := official | unOfficial | baseMint | quoteMint.

Definition field_name (f : field) : string :=
  match f with
  | official => "official"
  | unOfficial => "unOfficial"
  | baseMint => "baseMint"
  | quoteMint => "quoteMint"
  end.

(** [JSON.parse] keeps the last of several members with one key. *)
Fixpoint last_member (k : string) (members : list (string * json)) : option json :=
  match members with
  | [] => None
  | (k', v) :: rest =>
      match last_member k rest with
      | Some w => Some w
      | None => if String.eqb k k' then Some v else None
      end
  end.

(** [v.f] on a value that is not null; [None] is [undefined].  None of the
    four names is an array index or a member of a prototype, so only objects
    answer. *)
Definition get_prop (f : field) (v : json) : option json :=
  match v with
  | JObject members => last_member (field_name f) members
  | _ => None
  end.

(** [v?.f] *)
Definition opt_chain (f : field) (v : json) : option json :=
  match v with
  | JNull => None
  | _ => get_prop f v
  end.

(** [x ?? []] *)
Definition or_empty (x : option json) : json :=
  match x with
  | None | Some JNull => JArray []
  | Some v => v
  end.

(** Strings hold their text in UTF-8.  A byte [10xxxxxx] continues the
    code point begun before it. *)
Definition is_continuation (c : Ascii.ascii) : bool :=
  match c with
  | Ascii.Ascii _ _ _ _ _ _ false true => true
  | _ => false
  end.

(** The string iterator: one string per code point. *)
Fixpoint code_points (s : string) : list string :=
  match s with
  | EmptyString => []
  | String c rest =>
      let groups := code_points rest in
      match rest, groups with
      | String d _, group :: others =>
          if is_continuation d then String c group :: others
          else String c EmptyString :: groups
      | _, _ => String c EmptyString :: groups
      end
  end.

(** [...x] inside an array literal: arrays and strings are iterable, the
    other JSON values are not.  A string yields its code points. *)
Definition spread (x : json) : outcome (list json) :=
  match x with
  | JArray l => Ok l
  | JString s => Ok (map JString (code_points s))
  | _ => Throw (TypeError "object is not iterable")
  end.

(** [!!v] *)
Definition truthy (v : json) : bool :=
  match v with
  | JNull => false
  | JBool b => b
  | JNumber n => negb (Qeq_bool n 0)
  | JString s => negb (String.eqb s "")
  | JArray _ | JObject _ => true
  end.

(** [x === s] for a string [s]. *)
Definition strict_eq_string (x : option json) (s : string) : bool :=
  match x with
  | Some (JString t) => String.eqb t s
  | _ => false
  end.

(** [Array.prototype.find] with a callback that may throw. *)
Fixpoint Array_find (A : Type) (p : A -> outcome bool) (l : list A) : outcome (option A) :=
  match l with
  | [] => Ok None
  | i :: rest =>
      match p i with
      | Throw e => Throw e
      | Ok true => Ok (Some i)
      | Ok false => Array_find p rest
      end
  end.

(** [Array.prototype.filter(Boolean)] over slots that may hold
    [null]/[undefined]. *)
Fixpoint filter_Boolean (A : Type) (l : list (option A)) : list A :=
  match l with
  | [] => []
  | Some a :: rest => a :: filter_Boolean rest
  | None :: rest => filter_Boolean rest
  end.

(** ** The SDK and node-client vocabulary

    Types and pure functions of [@solana/web3.js], [@raydium-io/raydium-sdk],
    [@project-serum/anchor] and [bs58] that the class mentions.  They are not
    part of this repository, so the development is parametric in them. *)
Class Sdk : Type := {
  PublicKey : Type;
  Keypair : Type;
  Connection : Type;
  LiquidityPoolKeys : Type;
  LiquidityPoolInfo : Type;
  Price : Type;
  TransactionInstruction : Type;
  Transaction : Type;
  SimulatedTransactionResponse : Type;
  TOKEN_PROGRAM_ID : PublicKey;
  PublicKey_default : PublicKey;
  (* [new PublicKey(s)] *)
  new_PublicKey : string -> outcome PublicKey;
  (* [poolKeys.baseMint], [poolKeys.quoteMint] *)
  poolKeys_baseMint : LiquidityPoolKeys -> PublicKey;
  poolKeys_quoteMint : LiquidityPoolKeys -> PublicKey;
  (* [poolInfo.baseDecimals], [poolInfo.quoteDecimals] *)
  baseDecimals : LiquidityPoolInfo -> number;
  quoteDecimals : LiquidityPoolInfo -> number;
  jsonInfo2PoolKeys : json -> outcome LiquidityPoolKeys;
  (* [new TokenAmount(new Token(programId, mint, decimals), amount, isRaw)]:
     the exception the constructor throws when it cannot parse [amount]
     against the decimals, [None] when it accepts *)
  TokenAmount_rejects : PublicKey -> PublicKey -> number -> number -> bool -> option exn;
  (* [new Connection(url, { commitment })] *)
  new_Connection : string -> string -> outcome Connection;
  base58_decode : string -> outcome (list Byte.byte);
  Keypair_fromSecretKey : list Byte.byte -> outcome Keypair;
  Keypair_publicKey : Keypair -> PublicKey;
  (* [new Transaction({ blockhash, lastValidBlockHeight, feePayer })] *)
  new_Transaction : string -> number -> PublicKey -> Transaction;
  (* [tx.add(...items)]: the transaction after the call *)
  Transaction_add : Transaction -> list TransactionInstruction -> outcome Transaction
}.

Section Client.
Context {sdk : Sdk}.

(** [Wallet] of anchor: built from a keypair, it exposes [payer] and
    [publicKey]. *)
Record Wallet : Type := { payer : Keypair; publicKey : PublicKey }.

Definition new_Wallet (k : Keypair) : Wallet :=
  {| payer := k; publicKey := Keypair_publicKey k |}.

(** SDK value classes, as the arguments their constructors receive.  [Token]
    and [Percent] only store what they are given (the keys are [PublicKey]
    objects, the percentage is the literal 5/100); [TokenAmount] parses its
    amount and may throw, see [create_TokenAmount]. *)
Record Token : Type :=
  new_Token { token_programId : PublicKey; token_mint : PublicKey; token_decimals : number }.

Record TokenAmount : Type :=
  new_TokenAmount { token : Token; amount : number; isRaw : bool }.

Record Percent : Type :=
  new_Percent { numerator : number; denominator : number }.

(** [new TokenAmount(token, amount, isRaw)] *)
Definition create_TokenAmount (t : Token) (a : number) (raw : bool) : outcome TokenAmount :=
  match TokenAmount_rejects (token_programId t) (token_mint t) (token_decimals t) a raw with
  | Some e => Throw e
  | None => Ok (new_TokenAmount t a raw)
  end.

(** The object literal of [getTokenAccountByOwnerAndMint]. *)
Record AccountInfo : Type := { mint : PublicKey; account_amount : number }.

Record TokenAccount : Type :=
  { programId : PublicKey; pubkey : PublicKey; accountInfo : AccountInfo }.

(** The [fetch] response: its [ok] flag and what [json()] resolves to. *)
Record Response : Type := { ok : bool; Response_json : outcome json }.

(** [Liquidity.computeAmountOut] *)
Record ComputeAmountOutParams : Type := {
  cp_poolKeys : LiquidityPoolKeys;
  cp_poolInfo : LiquidityPoolInfo;
  cp_amountIn : TokenAmount;
  cp_currencyOut : Token;
  cp_slippage : Percent
}.

Record ComputeAmountOutResult : Type := {
  r_amountOut : TokenAmount;
  r_minAmountOut : TokenAmount;
  r_currentPrice : Price;
  r_executionPrice : option Price;
  r_priceImpact : Percent;
  r_fee : TokenAmount
}.

(** What [calcAmountOut] returns. *)
Record Quote : Type := {
  amountIn : TokenAmount;
  amountOut : TokenAmount;
  minAmountOut : TokenAmount;
  currentPrice : Price;
  executionPrice : option Price;
  priceImpact : Percent;
  fee : TokenAmount
}.

(** [Liquidity.makeSwapInstructionSimple] *)
Record UserKeys : Type := { tokenAccounts : list TokenAccount; owner : PublicKey }.

Record SwapConfig : Type := { bypassAssociatedCheck : bool }.

Record ComputeBudgetConfig : Type := { microLamports : number }.

Record SwapParams : Type := {
  sp_connection : Connection;
  sp_makeTxVersion : number;
  sp_poolKeys : LiquidityPoolKeys;
  sp_userKeys : UserKeys;
  sp_amountIn : TokenAmount;
  sp_amountOut : TokenAmount;
  sp_fixedSide : string;
  sp_config : SwapConfig;
  sp_computeBudgetConfig : ComputeBudgetConfig
}.

Record InnerTransaction : Type :=
  { instructions : list (option TransactionInstruction) }.

Record SwapInstructions : Type :=
  { innerTransactions : list InnerTransaction }.

Record BlockhashWithExpiryBlockHeight : Type :=
  { blockhash : string; lastValidBlockHeight : number }.

(** [SendOptions], with the two members the class sets. *)
Record SendOptions : Type := { skipPreflight : bool; maxRetries : number }.

(** ** Calls that leave the class *)
Inductive request : Type :=
| fetch (url : string)
| Liquidity_fetchInfo (c : Connection) (poolKeys : LiquidityPoolKeys)
| Liquidity_computeAmountOut (params : ComputeAmountOutParams)
| Liquidity_makeSwapInstructionSimple (params : SwapParams)
| Connection_getLatestBlockhash (c : Connection)
| Connection_sendTransaction (c : Connection) (tx : Transaction)
    (signers : list Keypair) (options : SendOptions)
| Connection_simulateTransaction (c : Connection) (tx : Transaction)
    (signers : list Keypair).

Definition response (r : request) : Type :=
  match r with
  | fetch _ => Response
  | Liquidity_fetchInfo _ _ => LiquidityPoolInfo
  | Liquidity_computeAmountOut _ => ComputeAmountOutResult
  | Liquidity_makeSwapInstructionSimple _ => SwapInstructions
  | Connection_getLatestBlockhash _ => BlockhashWithExpiryBlockHeight
  | Connection_sendTransaction _ _ _ _ => string
  | Connection_simulateTransaction _ _ _ => SimulatedTransactionResponse
  end.

(** The world outside the class answers each request, with a value or an
    exception, and moves on. *)
Class Node : Type := {
  World : Type;
  perform : forall r : request, World -> outcome (response r) * World
}.

Context {node : Node}.

(** ** The object and the monad of its methods *)
Record RaydiumSwap : Type := {
  allPoolKeysJson : option (list json);   (* [None]: never assigned *)
  connection : Connection;
  wallet : Wallet
}.

Record machine : Type := {
  this : RaydiumSwap;
  world : World;
  calls : list request
}.

Definition M (A : Type) : Type := machine -> outcome A * machine.

Definition ret {A} (a : A) : M A := fun m => (Ok a, m).

Definition throw {A} (e : exn) : M A := fun m => (Throw e, m).

Definition bind {A B} (p : M A) (k : A -> M B) : M B :=
  fun m =>
    match p m with
    | (Ok a, m') => k a m'
    | (Throw e, m') => (Throw e, m')
    end.

Definition lift {A} (o : outcome A) : M A := fun m => (o, m).

Definition get_this : M RaydiumSwap := fun m => (Ok (this m), m).

Definition set_allPoolKeysJson (l : list json) : M unit :=
  fun m =>
    (Ok tt,
     {| this := {| allPoolKeysJson := Some l;
                   connection := connection (this m);
                   wallet := wallet (this m) |};
        world := world m;
        calls := calls m |}).

Definition external (r : request) : M (response r) :=
  fun m =>
    let (answer, w) := perform r (world m) in
    (answer, {| this := this m; world := w; calls := calls m ++ [r] |}).

Definition bind_outcome {A B} (o : outcome A) (k : A -> outcome B) : outcome B :=
  match o with
  | Ok a => k a
  | Throw e => Throw e
  end.

Notation "x <- p ;; k" := (bind p (fun x => k))
  (at level 100, p at next level, right associativity).

(** ** The class *)

(** [constructor(RPC_URL, WALLET_PRIVATE_KEY)]: the pool list is not
    initialised. *)
Definition constructor (RPC_URL WALLET_PRIVATE_KEY : string) : outcome RaydiumSwap :=
  bind_outcome (new_Connection RPC_URL "confirmed") (fun c =>
  bind_outcome (base58_decode WALLET_PRIVATE_KEY) (fun secret =>
  bind_outcome (Keypair_fromSecretKey secret) (fun k =>
  Ok {| allPoolKeysJson := None; connection := c; wallet := new_Wallet k |}))).

Definition registry_url : string :=
  "https://api.raydium.io/v2/sdk/liquidity/mainnet.json".

(** [loadPoolKeys]: resolves to [Some []] for the [return []] of the failure
    branch and to [None] ([undefined]) when it runs to its end. *)
Definition loadPoolKeys : M (option (list json)) :=
  liquidityJsonResp <- external (fetch registry_url) ;;
  if negb (ok liquidityJsonResp) then ret (Some []) else
  liquidityJson <- lift (Response_json liquidityJsonResp) ;;
  officialPools <- lift (spread (or_empty (opt_chain official liquidityJson))) ;;
  unOfficialPools <- lift (spread (or_empty (opt_chain unOfficial liquidityJson))) ;;
  let allPoolKeysJson := officialPools ++ unOfficialPools in
  _ <- set_allPoolKeysJson allPoolKeysJson ;;
  ret None.

(** The callback of [find]: [i.baseMint] throws when [i] is [null]. *)
Definition pool_callback (mintA mintB : string) (i : json) : outcome bool :=
  match i with
  | JNull => Throw (TypeError "Cannot read properties of null")
  | _ =>
      Ok (strict_eq_string (get_prop baseMint i) mintA
            && strict_eq_string (get_prop quoteMint i) mintB
          || strict_eq_string (get_prop baseMint i) mintB
            && strict_eq_string (get_prop quoteMint i) mintA)
  end.

(** [findPoolInfoForTokens]: [None] is the [null] result. *)
Definition findPoolInfoForTokens (mintA mintB : string) : M (option LiquidityPoolKeys) :=
  self <- get_this ;;
  match allPoolKeysJson self with
  | None => throw (TypeError "Cannot read properties of undefined")
  | Some pools =>
      poolData <- lift (Array_find (pool_callback mintA mintB) pools) ;;
      match poolData with
      | None => ret None
      | Some found =>
          if negb (truthy found) then ret None else
          keys <- lift (jsonInfo2PoolKeys found) ;;
          ret (Some keys)
      end
  end.

Definition getTokenAccountByOwnerAndMint (mint : PublicKey) : M TokenAccount :=
  ret {| programId := TOKEN_PROGRAM_ID;
         pubkey := PublicKey_default;
         accountInfo := {| mint := mint; account_amount := 0 |} |}.

Definition calcAmountOut (poolKeys : LiquidityPoolKeys) (rawAmountIn : number)
    (swapInDirection : bool) : M Quote :=
  self <- get_this ;;
  poolInfo <- external (Liquidity_fetchInfo (connection self) poolKeys) ;;
  let currencyInMint := poolKeys_baseMint poolKeys in
  let currencyInDecimals := baseDecimals poolInfo in
  let currencyOutMint := poolKeys_quoteMint poolKeys in
  let currencyOutDecimals := quoteDecimals poolInfo in
  let '(currencyInMint, currencyInDecimals, currencyOutMint, currencyOutDecimals) :=
    if negb swapInDirection then
      (poolKeys_quoteMint poolKeys, quoteDecimals poolInfo,
       poolKeys_baseMint poolKeys, baseDecimals poolInfo)
    else
      (currencyInMint, currencyInDecimals, currencyOutMint, currencyOutDecimals) in
  let currencyIn := new_Token TOKEN_PROGRAM_ID currencyInMint currencyInDecimals in
  amountIn <- lift (create_TokenAmount currencyIn rawAmountIn false) ;;
  let currencyOut := new_Token TOKEN_PROGRAM_ID currencyOutMint currencyOutDecimals in
  let slippage := new_Percent 5 100 in
  computed <- external (Liquidity_computeAmountOut
                {| cp_poolKeys := poolKeys;
                   cp_poolInfo := poolInfo;
                   cp_amountIn := amountIn;
                   cp_currencyOut := currencyOut;
                   cp_slippage := slippage |}) ;;
  ret {| amountIn := amountIn;
         amountOut := r_amountOut computed;
         minAmountOut := r_minAmountOut computed;
         currentPrice := r_currentPrice computed;
         executionPrice := r_executionPrice computed;
         priceImpact := r_priceImpact computed;
         fee := r_fee computed |}.

(** [getSwapTransaction]; [maxLamports] is [None] when the caller leaves it
    out. *)
Definition getSwapTransaction (fromToken toToken : string) (amount : number)
    (poolKeys : LiquidityPoolKeys) (maxLamports : option number) : M Transaction :=
  let maxLamports := match maxLamports with Some n => n | None => 100000 end in
  quote <- calcAmountOut poolKeys amount false ;;
  fromKey <- lift (new_PublicKey fromToken) ;;
  fromAccount <- getTokenAccountByOwnerAndMint fromKey ;;
  toKey <- lift (new_PublicKey toToken) ;;
  toAccount <- getTokenAccountByOwnerAndMint toKey ;;
  self <- get_this ;;
  swapTransaction <- external (Liquidity_makeSwapInstructionSimple
                      {| sp_connection := connection self;
                         sp_makeTxVersion := 1;
                         sp_poolKeys := poolKeys;
                         sp_userKeys :=
                           {| tokenAccounts := [fromAccount; toAccount];
                              owner := publicKey (wallet self) |};
                         sp_amountIn := amountIn quote;
                         sp_amountOut := minAmountOut quote;
                         sp_fixedSide := "in";
                         sp_config := {| bypassAssociatedCheck := false |};
                         sp_computeBudgetConfig := {| microLamports := maxLamports |} |}) ;;
  recentBlockhashForSwap <- external (Connection_getLatestBlockhash (connection self)) ;;
  let allocateTransaction :=
    new_Transaction (blockhash recentBlockhashForSwap)
      (lastValidBlockHeight recentBlockhashForSwap)
      (publicKey (wallet self)) in
  match innerTransactions swapTransaction with
  | [] => throw (TypeError "Cannot read properties of undefined")
  | first :: _ =>
      allocateTransaction <-
        lift (Transaction_add allocateTransaction (filter_Boolean (instructions first))) ;;
      ret allocateTransaction
  end.

Definition sendTransaction (tx : Transaction) : M string :=
  self <- get_this ;;
  txid <- external (Connection_sendTransaction (connection self) tx
                      [payer (wallet self)]
                      {| skipPreflight := true; maxRetries := 2 |}) ;;
  ret txid.

Definition simulateTransaction (tx : Transaction) : M SimulatedTransactionResponse :=
  self <- get_this ;;
  txid <- external (Connection_simulateTransaction (connection self) tx
                      [payer (wallet self)]) ;;
  ret txid.

End Client.

(** ** A small concrete SDK and node

    Public keys are their base58 text, pool keys are the pair of mints, pool
    info is the pair of decimals, and a transaction is its list of
    instructions.  The node's world says whether the registry endpoint
    answers. *)
Definition SOL : string := "So11111111111111111111111111111111111111112".
Definition USDC : string := "EPjFWdd5AufqSSqeM2qN1xzybapC8G4wEGGkZwyTDt1v".
Definition RAY : string := "4k3Dyjzvzp8eMZWUXbBCjEvwSkkk59S5iCNLY3QrkX6R".

(** A base58 text of 32 bytes has between 32 and 44 characters. *)
Definition demo_valid_key (s : string) : bool :=
  (Nat.leb 32 (String.length s) && Nat.leb (String.length s) 44)%bool.

Definition demo_jsonInfo2PoolKeys (info : json) : outcome (string * string) :=
  match get_prop baseMint info, get_prop quoteMint info with
  | Some (JString b), Some (JString q) =>
      if (demo_valid_key b && demo_valid_key q)%bool then Ok (b, q)
      else Throw (SdkError "invalid public key")
  | _, _ => Throw (SdkError "invalid public key")
  end.

(** The amounts whose decimal text JavaScript prints with an exponent, below
    1e-6 or from 1e21 on, are the ones the demo constructor cannot parse. *)
Definition demo_TokenAmount_rejects (programId mint : string) (decimals a : number)
    (raw : bool) : option exn :=
  if (Qle_bool 1000000000000000000000 a
      || negb (Qle_bool a 0) && negb (Qle_bool (1 # 1000000) a))%bool
  then Some (SdkError "invalid BigNumberish string")
  else None.

Definition demo_Transaction_add (tx items : list string) : outcome (list string) :=
  match items with
  | [] => Throw (SdkError "No instructions")
  | _ => Ok (tx ++ items)
  end.

#[local] Instance demo_sdk : Sdk := {|
  PublicKey := string;
  Keypair := string;
  Connection := string;
  LiquidityPoolKeys := string * string;
  LiquidityPoolInfo := number * number;
  Price := number;
  TransactionInstruction := string;
  Transaction := list string;
  SimulatedTransactionResponse := string;
  TOKEN_PROGRAM_ID := "TokenkegQfeZyiNwAJbNbGKPFXCWuBvf9Ss623VQ5DA";
  PublicKey_default := "11111111111111111111111111111111";
  new_PublicKey := fun s => Ok s;
  poolKeys_baseMint := fst;
  poolKeys_quoteMint := snd;
  baseDecimals := fst;
  quoteDecimals := snd;
  jsonInfo2PoolKeys := demo_jsonInfo2PoolKeys;
  TokenAmount_rejects := demo_TokenAmount_rejects;
  new_Connection := fun url _ => Ok url;
  base58_decode := fun s => Ok (list_byte_of_string s);
  Keypair_fromSecretKey := fun secret => Ok (string_of_list_byte secret);
  Keypair_publicKey := fun k => k;
  new_Transaction := fun _ _ _ => [];
  Transaction_add := demo_Transaction_add
|}.

Definition demo_pool (base quote : string) : json :=
  JObject [("id", JString "pool"); ("baseMint", JString base); ("quoteMint", JString quote)].

Definition demo_registry : json :=
  JObject [("name", JString "Raydium Mainnet Liquidity Pools");
           ("official", JArray [demo_pool SOL USDC]);
           ("unOfficial", JArray [demo_pool RAY USDC; demo_pool SOL USDC])].

(** The minimum output the demo SDK derives from an output amount. *)
Definition demo_reduce (slippage : @Percent) (out : @TokenAmount demo_sdk) : @TokenAmount demo_sdk :=
  {| token := token out;
     amount := amount out * denominator slippage / (denominator slippage + numerator slippage);
     isRaw := isRaw out |}.

Definition demo_computeAmountOut (params : @ComputeAmountOutParams demo_sdk)
    : @ComputeAmountOutResult demo_sdk :=
  let out := {| token := cp_currencyOut params;
                amount := amount (cp_amountIn params);
                isRaw := isRaw (cp_amountIn params) |} in
  {| r_amountOut := out;
     r_minAmountOut := demo_reduce (cp_slippage params) out;
     r_currentPrice := 1;
     r_executionPrice := Some 1;
     r_priceImpact := new_Percent 0 100;
     r_fee := {| token := token (cp_amountIn params); amount := 0; isRaw := true |} |}.

Definition demo_perform (r : @request demo_sdk) (up : bool)
    : outcome (response r) * bool :=
  match r return outcome (response r) * bool with
  | fetch _ =>
      (Ok {| ok := up;
             Response_json := if up then Ok demo_registry
                              else Throw (SdkError "Unexpected end of JSON input") |}, up)
  | Liquidity_fetchInfo _ _ => (Ok (9, 6), up)
  | Liquidity_computeAmountOut params => (Ok (demo_computeAmountOut params), up)
  | Liquidity_makeSwapInstructionSimple _ =>
      (Ok {| innerTransactions := [ {| instructions := [Some "swapBaseIn"; None] |} ] |}, up)
  | Connection_getLatestBlockhash _ =>
      (Ok {| blockhash := "EkSnNWid2cvwEVnVx9aBqawnmiCNiDgp3gUdkDPTKN1N";
             lastValidBlockHeight := 1000 |}, up)
  | Connection_sendTransaction _ _ _ _ => (Ok "5VERv8NMvzbJMEkV8xnrLkEaWRtSz9CosKDYjCJjBRnb", up)
  | Connection_simulateTransaction _ _ _ => (Ok "simulated", up)
  end.

#[local] Instance demo_node : @Node demo_sdk := {| World := bool; perform := demo_perform |}.

Definition demo_client (pools : option (list json)) : @RaydiumSwap demo_sdk :=
  {| allPoolKeysJson := pools;
     connection := "https://api.mainnet-beta.solana.com";
     wallet := {| payer := "payer"; publicKey := "payer" |} |}.

Definition demo_machine (pools : option (list json)) (up : bool) : @machine demo_sdk demo_node :=
  {| this := demo_client pools; world := up; calls := [] |}.

(** The claim's wording of a match: a registry entry whose [baseMint] and
    [quoteMint] are the requested pair, in either order. *)
Definition is_pool_for (mintA mintB : string) (i : json) : Prop :=
  (get_prop baseMint i = Some (JString mintA) /\ get_prop quoteMint i = Some (JString mintB))
  \/ (get_prop baseMint i = Some (JString mintB) /\ get_prop quoteMint i = Some (JString mintA)).

(** No slot of the list holds [null]. *)
Definition not_null (i : json) : bool :=
  match i with
  | JNull => false
  | _ => true
  end.

(** The registry document's array under [f]: the array itself, or the empty
    list when the member is missing or [null]. *)
Definition registry_array (f : field) (doc : json) : option (list json) :=
  match opt_chain f doc with
  | None | Some JNull => Some []
  | Some (JArray l) => Some l
  | Some _ => None
  end.

(** A computation that leaves the three fields of the object as they were,
    whether it returns or throws. *)
Definition preserves_this {sdk : Sdk} {node : Node} {A : Type} (p : M A) : Prop :=
  forall m, this (snd (p m)) = this m.

(** JSON values an array literal cannot spread. *)
Definition not_iterable (v : json) : bool :=
  match v with
  | JBool _ | JNumber _ | JObject _ => true
  | JNull | JString _ | JArray _ => false
  end.

(** Requests that only read from the SDK and the node while a swap is
    being built: no registry download, no submission, no simulation. *)
Definition builds_only {sdk : Sdk} (r : request) : bool :=
  match r with
  | Liquidity_fetchInfo _ _
  | Liquidity_computeAmountOut _
  | Liquidity_makeSwapInstructionSimple _
  | Connection_getLatestBlockhash _ => true
  | fetch _
  | Connection_sendTransaction _ _ _ _
  | Connection_simulateTransaction _ _ _ => false
  end.

(** A node over the concrete SDK whose world scripts the answers to the
    registry download and to the swap builder; the other requests are
    answered as by the node above. *)
Record demo_script : Type := {
  script_fetch : outcome (@Response);
  script_swap : outcome (@SwapInstructions demo_sdk)
}.

Definition scripted_perform (r : @request demo_sdk) (w : demo_script)
    : outcome (response r) * demo_script :=
  match r return outcome (response r) * demo_script with
  | fetch _ => (script_fetch w, w)
  | Liquidity_fetchInfo c k => (fst (demo_perform (Liquidity_fetchInfo c k) true), w)
  | Liquidity_computeAmountOut p =>
      (fst (demo_perform (Liquidity_computeAmountOut p) true), w)
  | Liquidity_makeSwapInstructionSimple _ => (script_swap w, w)
  | Connection_getLatestBlockhash c =>
      (fst (demo_perform (Connection_getLatestBlockhash c) true), w)
  | Connection_sendTransaction c t s o =>
      (fst (demo_perform (Connection_sendTransaction c t s o) true), w)
  | Connection_simulateTransaction c t s =>
      (fst (demo_perform (Connection_simulateTransaction c t s) true), w)
  end.

Definition scripted_node : @Node demo_sdk :=
  {| World := demo_script; perform := scripted_perform |}.

Definition scripted_machine (pools : option (list json)) (w : demo_script)
    : @machine demo_sdk scripted_node :=
  @Build_machine demo_sdk scripted_node (demo_client pools) w [].

(** * Properties *)

Section Properties.
Context {sdk : Sdk} {node : Node}.

(** ** [find] *)

Lemma Array_find_ext (A : Type) (p q : A -> outcome bool) (l : list A) :
  (forall i, p i = q i) -> Array_find p l = Array_find q l.
Proof.
  intros Hpq. induction l as [|i rest IH]; simpl.
  - reflexivity.
  - rewrite Hpq, IH. reflexivity.
Qed.

Lemma Array_find_Some (A : Type) (p : A -> outcome bool) (l : list A) (x : A) :
  Array_find p l = Ok (Some x) -> In x l /\ p x = Ok true.
Proof.
  induction l as [|i rest IH]; simpl.
  - discriminate.
  - destruct (p i) as [[|]|e] eqn:Hi.
    + intros H. injection H as <-. auto.
    + intros H. destruct (IH H). auto.
    + discriminate.
Qed.

Lemma Array_find_None (A : Type) (p : A -> outcome bool) (l : list A) :
  Array_find p l = Ok None <-> Forall (fun i => p i = Ok false) l.
Proof.
  induction l as [|i rest IH]; simpl.
  - split; auto.
  - destruct (p i) as [[|]|e] eqn:Hi.
    + split; [discriminate|]. intros H. inversion H; subst. congruence.
    + rewrite IH. split; [auto|]. intros H. inversion H; auto.
    + split; [discriminate|]. intros H. inversion H; subst. congruence.
Qed.

(** The first element accepted by the callback is found, whatever follows,
    provided the callback does not throw on the way. *)
Lemma Array_find_first (A : Type) (p : A -> outcome bool) (l : list A) (x : A) :
  (forall i, In i l -> exists b, p i = Ok b) ->
  In x l -> p x = Ok true ->
  exists y, Array_find p l = Ok (Some y) /\ In y l /\ p y = Ok true.
Proof.
  induction l as [|i rest IH]; simpl; intros Hsafe Hin Hx.
  - contradiction.
  - destruct (Hsafe i (or_introl eq_refl)) as [[|] Hi]; rewrite Hi.
    + exists i. auto.
    + destruct Hin as [->|Hin]; [congruence|].
      destruct (IH (fun j Hj => Hsafe j (or_intror Hj)) Hin Hx) as (y & Hy & Hiny & Hpy).
      exists y. auto.
Qed.

(** ** The callback of the pool lookup *)

Lemma strict_eq_string_true (x : option json) (s : string) :
  strict_eq_string x s = true <-> x = Some (JString s).
Proof.
  destruct x as [[| | |t| |]|]; simpl; try (split; [discriminate|congruence]).
  rewrite String.eqb_eq. split; congruence.
Qed.

Lemma pool_callback_comm (mintA mintB : string) (i : json) :
  pool_callback mintA mintB i = pool_callback mintB mintA i.
Proof.
  destruct i; simpl; try reflexivity; f_equal; apply orb_comm.
Qed.

Lemma pool_callback_true (mintA mintB : string) (i : json) :
  pool_callback mintA mintB i = Ok true <-> is_pool_for mintA mintB i.
Proof.
  unfold is_pool_for. rewrite <- !strict_eq_string_true, <- !andb_true_iff, <- orb_true_iff.
  destruct i; simpl; split; intros H; solve [ congruence | inversion H; reflexivity ].
Qed.

Lemma pool_callback_false (mintA mintB : string) (i : json) :
  not_null i = true ->
  (pool_callback mintA mintB i = Ok false <-> ~ is_pool_for mintA mintB i).
Proof.
  intros Hi. rewrite <- pool_callback_true.
  destruct i; try discriminate Hi; unfold pool_callback;
    match goal with |- Ok ?b = _ <-> _ => destruct b end;
    split; congruence.
Qed.

Lemma pool_callback_total (mintA mintB : string) (i : json) :
  not_null i = true -> exists b, pool_callback mintA mintB i = Ok b.
Proof.
  destruct i; try discriminate; simpl; eauto.
Qed.

(** An entry the callback accepts is an object, hence truthy. *)
Lemma pool_callback_truthy (mintA mintB : string) (i : json) :
  pool_callback mintA mintB i = Ok true -> truthy i = true.
Proof.
  destruct i; simpl; try reflexivity; try discriminate;
    rewrite ?andb_false_r; discriminate.
Qed.

Lemma Array_find_app (A : Type) (p : A -> outcome bool) (l1 l2 : list A) :
  Array_find p (l1 ++ l2) =
    match Array_find p l1 with
    | Ok None => Array_find p l2
    | other => other
    end.
Proof.
  induction l1 as [|i rest IH]; simpl.
  - reflexivity.
  - destruct (p i) as [[|]|e]; [reflexivity|exact IH|reflexivity].
Qed.

Lemma Array_find_skips (mintA mintB : string) (before : list json) :
  forallb not_null before = true ->
  Forall (fun i => ~ is_pool_for mintA mintB i) before ->
  Array_find (pool_callback mintA mintB) before = Ok None.
Proof.
  intros Hnull Hnone. apply Array_find_None.
  rewrite forallb_forall in Hnull. rewrite Forall_forall in *.
  intros i Hi. apply pool_callback_false; auto.
Qed.

(** ** Running the monad *)

Lemma external_run (r : request) (m : machine) :
  external r m =
    (fst (perform r (world m)),
     {| this := this m; world := snd (perform r (world m)); calls := calls m ++ [r] |}).
Proof.
  unfold external. destruct (perform r (world m)); reflexivity.
Qed.

Lemma bind_run_Ok {A B} (p : M A) (k : A -> M B) (m m' : machine) (a : A) :
  p m = (Ok a, m') -> bind p k m = k a m'.
Proof. unfold bind. intros ->. reflexivity. Qed.

Lemma bind_run_Throw {A B} (p : M A) (k : A -> M B) (m m' : machine) (e : exn) :
  p m = (Throw e, m') -> bind p k m = (Throw e, m').
Proof. unfold bind. intros ->. reflexivity. Qed.

Lemma preserves_ret {A} (a : A) : preserves_this (ret a).
Proof. intros m. reflexivity. Qed.

Lemma preserves_throw {A} (e : exn) : preserves_this (@throw _ _ A e).
Proof. intros m. reflexivity. Qed.

Lemma preserves_lift {A} (o : outcome A) : preserves_this (lift o).
Proof. intros m. reflexivity. Qed.

Lemma preserves_get_this : preserves_this get_this.
Proof. intros m. reflexivity. Qed.

Lemma preserves_external (r : request) : preserves_this (external r).
Proof. intros m. rewrite external_run. reflexivity. Qed.

Lemma preserves_bind {A B} (p : M A) (k : A -> M B) :
  preserves_this p -> (forall a, preserves_this (k a)) -> preserves_this (bind p k).
Proof.
  intros Hp Hk m. unfold bind. specialize (Hp m).
  destruct (p m) as [[a|e] m1]; simpl in *.
  - rewrite Hk. exact Hp.
  - exact Hp.
Qed.

Create HintDb frame.

#[local] Hint Resolve preserves_ret preserves_throw preserves_lift preserves_get_this
  preserves_external preserves_bind : frame.

(** ** Pool lookup *)

(** The lookup makes no call and touches nothing; its result is decided by
    the list alone. *)
Lemma findPoolInfoForTokens_run (mintA mintB : string) (m : machine) :
  findPoolInfoForTokens mintA mintB m =
    (match allPoolKeysJson (this m) with
     | None => Throw (TypeError "Cannot read properties of undefined")
     | Some pools =>
         match Array_find (pool_callback mintA mintB) pools with
         | Throw e => Throw e
         | Ok None => Ok None
         | Ok (Some found) =>
             if negb (truthy found) then Ok None
             else bind_outcome (jsonInfo2PoolKeys found) (fun keys => Ok (Some keys))
         end
     end, m).
Proof.
  unfold findPoolInfoForTokens, bind, get_this, lift, throw, ret.
  destruct (allPoolKeysJson (this m)) as [pools|]; [|reflexivity].
  destruct (Array_find (pool_callback mintA mintB) pools) as [[found|]|e]; try reflexivity.
  destruct (truthy found); simpl; [|reflexivity].
  destruct (jsonInfo2PoolKeys found); reflexivity.
Qed.

(** C1. Pool lookup is symmetric in the token pair.  On a loaded registry
    the scan for (A, B) and the scan for (B, A) select the same entry, the
    two calls of [findPoolInfoForTokens] end alike, and what they return is
    decided by that entry: [null] when none is selected, otherwise the SDK's
    key set of the selected entry.  A selected entry has the requested mints
    as its base and quote mint in one of the two orders; and a pool with
    base mint A and quote mint B, the first of the list to match, is
    selected by the lookup of (B, A), which returns its key set as the
    lookup of (A, B) does. *)
Theorem findPoolInfoForTokens_symmetric (mintA mintB : string) (pools : list json)
    (m : machine) (Hloaded : allPoolKeysJson (this m) = Some pools) :
  Array_find (pool_callback mintA mintB) pools = Array_find (pool_callback mintB mintA) pools
  /\ findPoolInfoForTokens mintA mintB m = findPoolInfoForTokens mintB mintA m
  /\ findPoolInfoForTokens mintB mintA m
     = (match Array_find (pool_callback mintA mintB) pools with
        | Throw e => Throw e
        | Ok None => Ok None
        | Ok (Some selected) =>
            bind_outcome (jsonInfo2PoolKeys selected) (fun keys => Ok (Some keys))
        end, m)
  /\ (forall i, Array_find (pool_callback mintA mintB) pools = Ok (Some i) ->
        In i pools /\ is_pool_for mintA mintB i)
  /\ (forall before i after,
        pools = before ++ i :: after ->
        forallb not_null before = true ->
        Forall (fun j => ~ is_pool_for mintA mintB j) before ->
        get_prop baseMint i = Some (JString mintA) ->
        get_prop quoteMint i = Some (JString mintB) ->
        Array_find (pool_callback mintB mintA) pools = Ok (Some i)
        /\ forall keys, jsonInfo2PoolKeys i = Ok keys ->
             findPoolInfoForTokens mintB mintA m = (Ok (Some keys), m)
             /\ findPoolInfoForTokens mintA mintB m = (Ok (Some keys), m)).
Proof.
  assert (Hscan : Array_find (pool_callback mintA mintB) pools
                  = Array_find (pool_callback mintB mintA) pools)
    by (apply Array_find_ext; intros i; apply pool_callback_comm).
  assert (Hrun : findPoolInfoForTokens mintA mintB m
                 = (match Array_find (pool_callback mintA mintB) pools with
                    | Throw e => Throw e
                    | Ok None => Ok None
                    | Ok (Some selected) =>
                        bind_outcome (jsonInfo2PoolKeys selected)
                          (fun keys => Ok (Some keys))
                    end, m)).
  { rewrite findPoolInfoForTokens_run, Hloaded.
    destruct (Array_find (pool_callback mintA mintB) pools) as [[found|]|e] eqn:Hfound;
      try reflexivity.
    apply Array_find_Some in Hfound. destruct Hfound as [_ Hcb].
    rewrite (pool_callback_truthy _ _ _ Hcb). reflexivity. }
  assert (Hsame : findPoolInfoForTokens mintA mintB m = findPoolInfoForTokens mintB mintA m).
  { rewrite !findPoolInfoForTokens_run, Hloaded, Hscan. reflexivity. }
  split; [exact Hscan|]. split; [exact Hsame|]. split; [rewrite <- Hsame; exact Hrun|].
  split.
  - intros i Hi. apply Array_find_Some in Hi. destruct Hi as [Hin Hcb].
    split; [exact Hin|]. apply pool_callback_true. exact Hcb.
  - intros before i after -> Hslots Hbefore Hbase Hquote.
    assert (Hi : Array_find (pool_callback mintA mintB) (before ++ i :: after) = Ok (Some i)).
    { rewrite Array_find_app, (Array_find_skips Hslots Hbefore). simpl.
      assert (Hcb : pool_callback mintA mintB i = Ok true)
        by (apply pool_callback_true; left; auto).
      rewrite Hcb. reflexivity. }
    split; [rewrite <- Hscan; exact Hi|].
    intros keys Hkeys. rewrite <- Hsame, Hrun, Hi, Hkeys. split; reflexivity.
Qed.


(** ** Placeholder token accounts *)

(** C8. [getTokenAccountByOwnerAndMint] returns, from any state and with no
    call made, the placeholder account built from the mint alone: the SPL
    token program id, the default public key, the given mint and amount 0. *)
Theorem getTokenAccountByOwnerAndMint_placeholder (mint : PublicKey) (m : machine) :
  getTokenAccountByOwnerAndMint mint m =
    (Ok {| programId := TOKEN_PROGRAM_ID;
           pubkey := PublicKey_default;
           accountInfo := {| mint := mint; account_amount := 0 |} |}, m)
  /\ forall m' : machine,
       fst (getTokenAccountByOwnerAndMint mint m') = fst (getTokenAccountByOwnerAndMint mint m).
Proof.
  split; reflexivity.
Qed.

(** ** Frame *)

Lemma calcAmountOut_preserves_this (poolKeys : LiquidityPoolKeys) (rawAmountIn : number)
    (swapInDirection : bool) :
  preserves_this (calcAmountOut poolKeys rawAmountIn swapInDirection).
Proof.
  unfold calcAmountOut.
  apply preserves_bind; [auto with frame|]. intros self.
  apply preserves_bind; [auto with frame|]. intros poolInfo.
  destruct swapInDirection; simpl;
    (apply preserves_bind; [apply preserves_lift|]; intros amountIn);
    (apply preserves_bind; [|intros computed; apply preserves_ret]);
    match goal with |- preserves_this (external ?r) => exact (preserves_external r) end.
Qed.

(** C9. Pool lookup and quote computation leave [allPoolKeysJson],
    [connection] and [wallet] as they were, whether they return or throw;
    the lookup does not even reach the outside world. *)
Theorem lookup_and_quote_leave_client_unchanged (mintA mintB : string)
    (poolKeys : LiquidityPoolKeys) (rawAmountIn : number) (swapInDirection : bool)
    (m : machine) :
  snd (findPoolInfoForTokens mintA mintB m) = m
  /\ this (snd (calcAmountOut poolKeys rawAmountIn swapInDirection m)) = this m
  /\ allPoolKeysJson (this (snd (calcAmountOut poolKeys rawAmountIn swapInDirection m)))
     = allPoolKeysJson (this m)
  /\ connection (this (snd (calcAmountOut poolKeys rawAmountIn swapInDirection m)))
     = connection (this m)
  /\ wallet (this (snd (calcAmountOut poolKeys rawAmountIn swapInDirection m)))
     = wallet (this m).
Proof.
  rewrite findPoolInfoForTokens_run, calcAmountOut_preserves_this. repeat split.
Qed.

(** ** Submission *)

(** C10. [sendTransaction] hands the transaction to the node client once,
    signed by the wallet's payer, with preflight skipped and a retry count of
    2; whatever the node client answers, a transaction id or an exception, is
    the result, and the object is left as it was. *)
Theorem sendTransaction_single_submission (tx : Transaction) (m : machine) :
  let submission :=
    Connection_sendTransaction (connection (this m)) tx [payer (wallet (this m))]
      {| skipPreflight := true; maxRetries := 2 |} in
  sendTransaction tx m =
    (fst (perform submission (world m)),
     {| this := this m;
        world := snd (perform submission (world m));
        calls := calls m ++ [submission] |}).
Proof.
  unfold sendTransaction, bind, get_this, ret. rewrite external_run. simpl.
  destruct (perform _ (world m)) as [[txid|e] w]; reflexivity.
Qed.

(** ** Loading the registry *)

Lemma spread_registry_array (f : field) (doc : json) (l : list json) :
  registry_array f doc = Some l -> spread (or_empty (opt_chain f doc)) = Ok l.
Proof.
  unfold registry_array.
  destruct (opt_chain f doc) as [[| | | | |]|]; simpl; congruence.
Qed.

(** When the response is not ok the method returns its [[]] to the caller
    and assigns nothing. *)
Lemma loadPoolKeys_not_ok (m : machine) (resp : Response) (w1 : World) :
  perform (fetch registry_url) (world m) = (Ok resp, w1) ->
  ok resp = false ->
  loadPoolKeys m =
    (Ok (Some []),
     {| this := this m; world := w1; calls := calls m ++ [fetch registry_url] |}).
Proof.
  intros Hfetch Hok. unfold loadPoolKeys, bind. rewrite external_run, Hfetch. simpl.
  rewrite Hok. reflexivity.
Qed.

(** C6. After a successful fetch of a document whose [official] and
    [unOfficial] members are arrays (a missing or [null] member counting as
    the empty array), the pool list is the official array followed by the
    unofficial one, entry for entry. *)
Theorem loadPoolKeys_concatenates (m : machine) (resp : Response) (w1 : World)
    (doc : json) (officialPools unOfficialPools : list json)
    (Hfetch : perform (fetch registry_url) (world m) = (Ok resp, w1))
    (Hok : ok resp = true)
    (Hdoc : Response_json resp = Ok doc)
    (Hofficial : registry_array official doc = Some officialPools)
    (HunOfficial : registry_array unOfficial doc = Some unOfficialPools) :
  loadPoolKeys m =
    (Ok None,
     {| this := {| allPoolKeysJson := Some (officialPools ++ unOfficialPools);
                   connection := connection (this m);
                   wallet := wallet (this m) |};
        world := w1;
        calls := calls m ++ [fetch registry_url] |}).
Proof.
  unfold loadPoolKeys, bind. rewrite external_run, Hfetch. simpl.
  rewrite Hok. simpl. unfold lift. rewrite Hdoc.
  rewrite (spread_registry_array _ _ Hofficial), (spread_registry_array _ _ HunOfficial).
  reflexivity.
Qed.

(** ** Quotes *)

(** One run of [calcAmountOut], step by step. *)
Lemma calcAmountOut_run (poolKeys : LiquidityPoolKeys) (rawAmountIn : number)
    (swapInDirection : bool) (m : machine) :
  let info := Liquidity_fetchInfo (connection (this m)) poolKeys in
  calcAmountOut poolKeys rawAmountIn swapInDirection m =
    match perform info (world m) with
    | (Throw e, w1) =>
        (Throw e, {| this := this m; world := w1; calls := calls m ++ [info] |})
    | (Ok poolInfo, w1) =>
        let inMint :=
          if swapInDirection then poolKeys_baseMint poolKeys else poolKeys_quoteMint poolKeys in
        let inDecimals :=
          if swapInDirection then baseDecimals poolInfo else quoteDecimals poolInfo in
        let currencyOut :=
          if swapInDirection
          then new_Token TOKEN_PROGRAM_ID (poolKeys_quoteMint poolKeys) (quoteDecimals poolInfo)
          else new_Token TOKEN_PROGRAM_ID (poolKeys_baseMint poolKeys) (baseDecimals poolInfo) in
        match TokenAmount_rejects TOKEN_PROGRAM_ID inMint inDecimals rawAmountIn false with
        | Some e =>
            (Throw e, {| this := this m; world := w1; calls := calls m ++ [info] |})
        | None =>
            let given :=
              new_TokenAmount (new_Token TOKEN_PROGRAM_ID inMint inDecimals) rawAmountIn false in
            let params :=
              {| cp_poolKeys := poolKeys;
                 cp_poolInfo := poolInfo;
                 cp_amountIn := given;
                 cp_currencyOut := currencyOut;
                 cp_slippage := new_Percent 5 100 |} in
            let after w2 :=
              {| this := this m;
                 world := w2;
                 calls := calls m ++ [info; Liquidity_computeAmountOut params] |} in
            match perform (Liquidity_computeAmountOut params) w1 with
            | (Throw e, w2) => (Throw e, after w2)
            | (Ok computed, w2) =>
                (Ok {| amountIn := given;
                       amountOut := r_amountOut computed;
                       minAmountOut := r_minAmountOut computed;
                       currentPrice := r_currentPrice computed;
                       executionPrice := r_executionPrice computed;
                       priceImpact := r_priceImpact computed;
                       fee := r_fee computed |}, after w2)
            end
        end
    end.
Proof.
  unfold calcAmountOut, bind, get_this, ret, lift, create_TokenAmount. rewrite external_run.
  destruct (perform (Liquidity_fetchInfo (connection (this m)) poolKeys) (world m))
    as [[poolInfo|e] w1]; simpl; [|reflexivity].
  destruct swapInDirection; simpl;
    (destruct (TokenAmount_rejects _ _ _ rawAmountIn false) as [rejected|]; [reflexivity|]);
    rewrite external_run; simpl; rewrite <- app_assoc; simpl;
    match goal with |- context [perform ?r w1] => destruct (perform r w1) as [[computed|e] w2] end;
    reflexivity.
Qed.

(** C2. Once the pool info is fetched, [swapInDirection] selects the side of
    the pool that is the input: for [true] the amount is built in the base
    mint with the base decimals and the output currency is the quote mint
    with the quote decimals, for [false] the two sides are exchanged.  If
    the SDK's [TokenAmount] constructor rejects the amount for that input
    currency its exception ends the call before any computation is asked
    for; otherwise the request sent to the SDK's computation carries that
    input amount and that output currency, and the [amountIn] of a returned
    quote is that input amount. *)
Theorem calcAmountOut_direction (poolKeys : LiquidityPoolKeys) (rawAmountIn : number)
    (swapInDirection : bool) (m : machine) (poolInfo : LiquidityPoolInfo) (w1 : World)
    (Hinfo : perform (Liquidity_fetchInfo (connection (this m)) poolKeys) (world m)
             = (Ok poolInfo, w1)) :
  let sides (inMint : PublicKey) (inDecimals : number)
            (outMint : PublicKey) (outDecimals : number) : Prop :=
    match TokenAmount_rejects TOKEN_PROGRAM_ID inMint inDecimals rawAmountIn false with
    | Some e =>
        calcAmountOut poolKeys rawAmountIn swapInDirection m
          = (Throw e,
             {| this := this m;
                world := w1;
                calls := calls m ++ [Liquidity_fetchInfo (connection (this m)) poolKeys] |})
    | None =>
        exists params,
          calls (snd (calcAmountOut poolKeys rawAmountIn swapInDirection m))
            = calls m ++ [Liquidity_fetchInfo (connection (this m)) poolKeys;
                          Liquidity_computeAmountOut params]
          /\ (forall quote,
                fst (calcAmountOut poolKeys rawAmountIn swapInDirection m) = Ok quote ->
                amountIn quote = cp_amountIn params)
          /\ cp_amountIn params
             = new_TokenAmount (new_Token TOKEN_PROGRAM_ID inMint inDecimals) rawAmountIn false
          /\ cp_currencyOut params = new_Token TOKEN_PROGRAM_ID outMint outDecimals
    end in
  match swapInDirection with
  | true =>
      sides (poolKeys_baseMint poolKeys) (baseDecimals poolInfo)
            (poolKeys_quoteMint poolKeys) (quoteDecimals poolInfo)
  | false =>
      sides (poolKeys_quoteMint poolKeys) (quoteDecimals poolInfo)
            (poolKeys_baseMint poolKeys) (baseDecimals poolInfo)
  end.
Proof.
  cbv zeta. rewrite calcAmountOut_run. cbv zeta. rewrite Hinfo.
  destruct swapInDirection;
    (destruct (TokenAmount_rejects _ _ _ rawAmountIn false) as [rejected|]; [reflexivity|]);
    match goal with |- context [perform (Liquidity_computeAmountOut ?p) w1] =>
      exists p; destruct (perform (Liquidity_computeAmountOut p) w1) as [[computed|e] w2]
    end; simpl;
    (split; [reflexivity|]);
    (split; [intros quote Hq; first [injection Hq as <-; reflexivity | discriminate Hq]|]);
    split; reflexivity.
Qed.

(** C5. Every request [calcAmountOut] sends to the SDK's computation carries
    the slippage [Percent(5, 100)], whatever the pool, the amount and the
    direction; the amounts of a returned quote are those the SDK computed
    for that request, so with an SDK whose minimum output is its output
    reduced by the request's slippage, the quote's [minAmountOut] is its
    [amountOut] reduced by 5/100. *)
Theorem calcAmountOut_fixed_slippage (reduce : Percent -> TokenAmount -> TokenAmount)
    (Hsdk : forall params w computed w',
        perform (Liquidity_computeAmountOut params) w = (Ok computed, w') ->
        r_minAmountOut computed = reduce (cp_slippage params) (r_amountOut computed))
    (poolKeys : LiquidityPoolKeys) (rawAmountIn : number) (swapInDirection : bool)
    (m : machine) :
  (exists sent,
      calls (snd (calcAmountOut poolKeys rawAmountIn swapInDirection m)) = calls m ++ sent
      /\ forall params, In (Liquidity_computeAmountOut params) sent ->
           cp_slippage params = new_Percent 5 100)
  /\ (forall quote, fst (calcAmountOut poolKeys rawAmountIn swapInDirection m) = Ok quote ->
        (exists params w computed w',
            In (Liquidity_computeAmountOut params)
               (calls (snd (calcAmountOut poolKeys rawAmountIn swapInDirection m)))
            /\ perform (Liquidity_computeAmountOut params) w = (Ok computed, w')
            /\ cp_slippage params = new_Percent 5 100
            /\ amountOut quote = r_amountOut computed
            /\ minAmountOut quote = r_minAmountOut computed)
        /\ minAmountOut quote = reduce (new_Percent 5 100) (amountOut quote)).
Proof.
  rewrite calcAmountOut_run. cbv zeta.
  destruct (perform (Liquidity_fetchInfo (connection (this m)) poolKeys) (world m))
    as [[poolInfo|e] w1].
  - destruct (TokenAmount_rejects _ _ _ rawAmountIn false) as [rejected|].
    { simpl. split; [eexists; split; [reflexivity|]|].
      - intros params [H|[]]. discriminate H.
      - intros quote Hq. discriminate Hq. }
    match goal with |- context [perform (Liquidity_computeAmountOut ?p) w1] =>
      set (req := p);
      destruct (perform (Liquidity_computeAmountOut req) w1) as [[computed|e] w2] eqn:Hrun
    end; simpl; (split; [eexists; split; [reflexivity|]|]).
    + intros params [H|[H|[]]]; [discriminate H|]. injection H as <-. reflexivity.
    + intros quote Hq. injection Hq as <-. simpl. split.
      * exists req, w1, computed, w2. repeat split; try assumption.
        apply in_or_app. right. simpl. auto.
      * apply (Hsdk _ _ _ _ Hrun).
    + intros params [H|[H|[]]]; [discriminate H|]. injection H as <-. reflexivity.
    + intros quote Hq. discriminate Hq.
  - simpl. split; [eexists; split; [reflexivity|]|].
    + intros params [H|[]]. discriminate H.
    + intros quote Hq. discriminate Hq.
Qed.

(** ** Building the swap *)

(** C4. [getSwapTransaction] quotes with the direction flag [false] whatever
    [fromToken] and [toToken] are: it fails as [calcAmountOut(poolKeys,
    amount, false)] fails, and when that quote is returned its [amountIn] is
    the amount in the pool's quote mint with the quote decimals, and this is
    the [amountIn] of the swap request sent to the SDK, with the quote's
    [minAmountOut] as [amountOut]. *)
Theorem getSwapTransaction_quotes_quote_side (fromToken toToken : string) (amount : number)
    (poolKeys : LiquidityPoolKeys) (maxLamports : option number) (m : machine) :
  (forall e m1,
      calcAmountOut poolKeys amount false m = (Throw e, m1) ->
      getSwapTransaction fromToken toToken amount poolKeys maxLamports m = (Throw e, m1))
  /\ (forall quote m1,
        calcAmountOut poolKeys amount false m = (Ok quote, m1) ->
        (exists poolInfo w1,
            perform (Liquidity_fetchInfo (connection (this m)) poolKeys) (world m)
              = (Ok poolInfo, w1)
            /\ amountIn quote
               = new_TokenAmount
                   (new_Token TOKEN_PROGRAM_ID (poolKeys_quoteMint poolKeys)
                      (quoteDecimals poolInfo))
                   amount false)
        /\ (forall fromKey toKey,
              new_PublicKey fromToken = Ok fromKey ->
              new_PublicKey toToken = Ok toKey ->
              exists swap rest,
                calls (snd (getSwapTransaction fromToken toToken amount poolKeys maxLamports m))
                  = calls m1 ++ Liquidity_makeSwapInstructionSimple swap :: rest
                /\ sp_amountIn swap = amountIn quote
                /\ sp_amountOut swap = minAmountOut quote
                /\ sp_poolKeys swap = poolKeys)).
Proof.
  split.
  - intros e m1 Hq. unfold getSwapTransaction. apply bind_run_Throw. exact Hq.
  - intros quote m1 Hq. split.
    + rewrite calcAmountOut_run in Hq. cbv zeta in Hq.
      destruct (perform (Liquidity_fetchInfo (connection (this m)) poolKeys) (world m))
        as [[poolInfo|e] w1]; [|discriminate Hq].
      exists poolInfo, w1. split; [reflexivity|].
      destruct (TokenAmount_rejects _ _ _ amount false) as [rejected|]; [discriminate Hq|].
      match type of Hq with context [perform (Liquidity_computeAmountOut ?p) w1] =>
        destruct (perform (Liquidity_computeAmountOut p) w1) as [[computed|e] w2] end;
        [|discriminate Hq].
      injection Hq as <- _. reflexivity.
    + intros fromKey toKey Hfrom Hto.
      unfold getSwapTransaction. rewrite (bind_run_Ok _ _ _ Hq).
      unfold bind, lift, getTokenAccountByOwnerAndMint, ret, get_this.
      rewrite Hfrom, Hto, external_run.
      match goal with |- context [perform ?r (world m1)] =>
        destruct (perform r (world m1)) as [[swapTransaction|e] w3] end; simpl.
      * rewrite external_run. simpl.
        match goal with |- context [perform ?r w3] =>
          destruct (perform r w3) as [[recent|e] w4] end; simpl.
        -- destruct (innerTransactions swapTransaction) as [|first others]; simpl.
           ++ rewrite <- app_assoc. simpl. eexists _, _. repeat split.
           ++ destruct (Transaction_add _ _); simpl;
                rewrite <- app_assoc; simpl; eexists _, _; repeat split.
        -- rewrite <- app_assoc. simpl. eexists _, _. repeat split.
      * eexists _, _. repeat split.
Qed.

End Properties.

(** * The class on the concrete SDK and node *)

(** The demo SDK derives its minimum output from its output and the
    request's slippage. *)
Lemma demo_sdk_reduces (params : ComputeAmountOutParams) (w : bool)
    (computed : ComputeAmountOutResult) (w' : bool) :
  perform (Liquidity_computeAmountOut params) w = (Ok computed, w') ->
  r_minAmountOut computed = demo_reduce (cp_slippage params) (r_amountOut computed).
Proof.
  simpl. intros H. injection H as <- _. reflexivity.
Qed.

(** C3 (not met by the code). The failure branch of [loadPoolKeys] hands its
    empty list to the caller and assigns nothing: on a client fresh from the
    constructor the pool list is still unassigned after the call, and the
    next lookup throws a [TypeError] instead of returning [null]; on a client
    that had loaded a list before, the old list stays and the lookup still
    finds its pools. *)
Theorem loadPoolKeys_failed_fetch_assigns_nothing :
  constructor "https://api.mainnet-beta.solana.com" "payer" = Ok (demo_client None)
  /\ loadPoolKeys (demo_machine None false)
     = (Ok (Some []),
        {| this := demo_client None; world := false; calls := [fetch registry_url] |})
  /\ allPoolKeysJson (this (snd (loadPoolKeys (demo_machine None false)))) <> Some []
  /\ fst (findPoolInfoForTokens SOL USDC (snd (loadPoolKeys (demo_machine None false))))
     = Throw (TypeError "Cannot read properties of undefined")
  /\ fst (findPoolInfoForTokens SOL USDC
            (snd (loadPoolKeys (demo_machine (Some [demo_pool SOL USDC]) false))))
     = Ok (Some (SOL, USDC)).
Proof.
  repeat split. discriminate.
Qed.

Lemma findPoolInfoForTokens_symmetric_witness :
  let pools := [demo_pool RAY USDC; demo_pool SOL USDC] in
  let m := demo_machine (Some pools) true in
  allPoolKeysJson (this m) = Some pools
  /\ findPoolInfoForTokens USDC SOL m = (Ok (Some (SOL, USDC)), m)
  /\ findPoolInfoForTokens SOL USDC m = (Ok (Some (SOL, USDC)), m).
Proof.
  intros pools m. split; [reflexivity|].
  destruct (@findPoolInfoForTokens_symmetric demo_sdk demo_node SOL USDC pools m eq_refl)
    as (_ & _ & _ & _ & Hfound).
  refine (proj2 (Hfound [demo_pool RAY USDC] (demo_pool SOL USDC) [] eq_refl eq_refl _
                   eq_refl eq_refl) (SOL, USDC) eq_refl).
  repeat constructor. intros [[H _]|[H _]]; vm_compute in H; discriminate H.
Defined.



Lemma loadPoolKeys_concatenates_witness :
  let m := demo_machine None true in
  perform (fetch registry_url) (world m)
    = (Ok {| ok := true; Response_json := Ok demo_registry |}, true)
  /\ registry_array official demo_registry = Some [demo_pool SOL USDC]
  /\ registry_array unOfficial demo_registry = Some [demo_pool RAY USDC; demo_pool SOL USDC]
  /\ loadPoolKeys m
     = (Ok None,
        {| this := demo_client (Some ([demo_pool SOL USDC]
                                      ++ [demo_pool RAY USDC; demo_pool SOL USDC]));
           world := true;
           calls := calls m ++ [fetch registry_url] |}).
Proof.
  intros m. repeat (split; [reflexivity|]).
  exact (@loadPoolKeys_concatenates demo_sdk demo_node m _ true demo_registry _ _
           eq_refl eq_refl eq_refl eq_refl eq_refl).
Defined.

Lemma calcAmountOut_direction_witness :
  let m := demo_machine None true in
  perform (Liquidity_fetchInfo (connection (this m)) (SOL, USDC)) (world m)
    = (Ok (9, 6), true)
  /\ (exists params,
        calls (snd (calcAmountOut (SOL, USDC) 2 true m))
          = calls m ++ [Liquidity_fetchInfo (connection (this m)) (SOL, USDC);
                        Liquidity_computeAmountOut params]
        /\ cp_amountIn params = new_TokenAmount (new_Token TOKEN_PROGRAM_ID SOL 9) 2 false
        /\ cp_currencyOut params = new_Token TOKEN_PROGRAM_ID USDC 6)
  /\ calcAmountOut (SOL, USDC) (1 # 10000000) false m
     = (Throw (SdkError "invalid BigNumberish string"),
        {| this := this m;
           world := true;
           calls := calls m ++ [Liquidity_fetchInfo (connection (this m)) (SOL, USDC)] |}).
Proof.
  intros m. split; [reflexivity|]. split.
  - destruct (@calcAmountOut_direction demo_sdk demo_node (SOL, USDC) 2 true m (9, 6) true
                eq_refl)
      as (params & Hcalls & _ & Hin & Hout).
    exists params. repeat split; assumption.
  - exact (@calcAmountOut_direction demo_sdk demo_node (SOL, USDC) (1 # 10000000) false m
             (9, 6) true eq_refl).
Defined.

Lemma calcAmountOut_fixed_slippage_witness :
  let m := demo_machine None true in
  (forall params w computed w',
      perform (Liquidity_computeAmountOut params) w = (Ok computed, w') ->
      r_minAmountOut computed = demo_reduce (cp_slippage params) (r_amountOut computed))
  /\ exists quote,
       fst (calcAmountOut (SOL, USDC) 2 false m) = Ok quote
       /\ minAmountOut quote = demo_reduce (new_Percent 5 100) (amountOut quote).
Proof.
  intros m. split; [exact demo_sdk_reduces|].
  eexists. split; [reflexivity|].
  exact (proj2 (proj2 (@calcAmountOut_fixed_slippage demo_sdk demo_node demo_reduce demo_sdk_reduces
                         (SOL, USDC) 2 false m) _ eq_refl)).
Defined.

(** The requested direction is base to quote (SOL to USDC); the amount sent
    to the swap builder is nevertheless in USDC. *)
Lemma getSwapTransaction_quotes_quote_side_witness :
  let m := demo_machine None true in
  exists quote m1 swap rest,
    calcAmountOut (SOL, USDC) 2 false m = (Ok quote, m1)
    /\ new_PublicKey SOL = Ok SOL
    /\ new_PublicKey USDC = Ok USDC
    /\ calls (snd (getSwapTransaction SOL USDC 2 (SOL, USDC) None m))
       = calls m1 ++ Liquidity_makeSwapInstructionSimple swap :: rest
    /\ sp_amountIn swap = amountIn quote
    /\ amountIn quote = new_TokenAmount (new_Token TOKEN_PROGRAM_ID USDC 6) 2 false.
Proof.
  intros m.
  destruct (proj2 (@getSwapTransaction_quotes_quote_side demo_sdk demo_node SOL USDC 2 (SOL, USDC) None m)
              _ _ eq_refl) as [_ Hswap].
  destruct (Hswap SOL USDC eq_refl eq_refl) as (swap & rest & Hcalls & Hin & _).
  eexists _, _, swap, rest.
  split; [vm_compute; reflexivity|]. split; [reflexivity|]. split; [reflexivity|].
  split; [exact Hcalls|]. split; [exact Hin|]. reflexivity.
Defined.

(** * Further properties of the class *)

Section Coverage.
Context {sdk : Sdk} {node : Node}.

(** ** Scanning the pool list *)


(** X2. A [null] slot reached before any match makes the lookup throw a
    [TypeError]; the object is left as it was. *)
Theorem findPoolInfoForTokens_null_slot (mintA mintB : string)
    (before after : list json) (m : machine)
    (Hloaded : allPoolKeysJson (this m) = Some (before ++ JNull :: after))
    (Hslots : forallb not_null before = true)
    (Hbefore : Forall (fun i => ~ is_pool_for mintA mintB i) before) :
  exists msg, findPoolInfoForTokens mintA mintB m = (Throw (TypeError msg), m).
Proof.
  rewrite findPoolInfoForTokens_run, Hloaded, Array_find_app.
  rewrite (Array_find_skips Hslots Hbefore). simpl. eexists. reflexivity.
Qed.

(** ** Construction *)

Lemma constructor_unassigned (RPC_URL WALLET_PRIVATE_KEY : string) (client : RaydiumSwap) :
  constructor RPC_URL WALLET_PRIVATE_KEY = Ok client -> allPoolKeysJson client = None.
Proof.
  unfold constructor, bind_outcome.
  destruct (new_Connection RPC_URL "confirmed") as [c|e]; [|discriminate].
  destruct (base58_decode WALLET_PRIVATE_KEY) as [secret|e]; [|discriminate].
  destruct (Keypair_fromSecretKey secret) as [k|e]; [|discriminate].
  intros H. injection H as <-. reflexivity.
Qed.

(** X3. The constructor succeeds exactly when the connection, the base58
    decoding and the keypair are all obtained; the client it returns has no
    pool list yet, uses commitment [confirmed], and its wallet's public key
    is that of the payer keypair. *)
Theorem constructor_Ok_iff (RPC_URL WALLET_PRIVATE_KEY : string) (client : RaydiumSwap) :
  constructor RPC_URL WALLET_PRIVATE_KEY = Ok client
  <-> exists c secret k,
        new_Connection RPC_URL "confirmed" = Ok c
        /\ base58_decode WALLET_PRIVATE_KEY = Ok secret
        /\ Keypair_fromSecretKey secret = Ok k
        /\ client = {| allPoolKeysJson := None;
                       connection := c;
                       wallet := {| payer := k; publicKey := Keypair_publicKey k |} |}.
Proof.
  unfold constructor, bind_outcome, new_Wallet. split.
  - destruct (new_Connection RPC_URL "confirmed") as [c|e]; [|discriminate].
    destruct (base58_decode WALLET_PRIVATE_KEY) as [secret|e]; [|discriminate].
    destruct (Keypair_fromSecretKey secret) as [k|e] eqn:Hk; [|discriminate].
    intros H. injection H as <-. exists c, secret, k. auto.
  - intros (c & secret & k & -> & -> & -> & ->). reflexivity.
Qed.

(** X4. On a client fresh from the constructor every lookup throws a
    [TypeError], whatever the pair: the pool list has not been assigned. *)
Theorem lookup_before_load_throws (RPC_URL WALLET_PRIVATE_KEY mintA mintB : string)
    (client : RaydiumSwap) (w : World) (log : list request)
    (Hnew : constructor RPC_URL WALLET_PRIVATE_KEY = Ok client) :
  exists msg,
    findPoolInfoForTokens mintA mintB {| this := client; world := w; calls := log |}
      = (Throw (TypeError msg), {| this := client; world := w; calls := log |}).
Proof.
  rewrite findPoolInfoForTokens_run. simpl.
  rewrite (constructor_unassigned _ _ Hnew). eexists. reflexivity.
Qed.

(** ** Loading, path by path *)

Lemma loadPoolKeys_run (m : machine) :
  let after w :=
    {| this := this m; world := w; calls := calls m ++ [fetch registry_url] |} in
  loadPoolKeys m =
    match perform (fetch registry_url) (world m) with
    | (Throw e, w) => (Throw e, after w)
    | (Ok resp, w) =>
        if negb (ok resp) then (Ok (Some []), after w) else
        match Response_json resp with
        | Throw e => (Throw e, after w)
        | Ok doc =>
            match spread (or_empty (opt_chain official doc)) with
            | Throw e => (Throw e, after w)
            | Ok officialPools =>
                match spread (or_empty (opt_chain unOfficial doc)) with
                | Throw e => (Throw e, after w)
                | Ok unOfficialPools =>
                    (Ok None,
                     {| this := {| allPoolKeysJson := Some (officialPools ++ unOfficialPools);
                                   connection := connection (this m);
                                   wallet := wallet (this m) |};
                        world := w;
                        calls := calls m ++ [fetch registry_url] |})
                end
            end
        end
    end.
Proof.
  unfold loadPoolKeys, bind. rewrite external_run.
  destruct (perform (fetch registry_url) (world m)) as [[resp|e] w]; simpl; [|reflexivity].
  destruct (ok resp); simpl; [|reflexivity].
  unfold lift. destruct (Response_json resp) as [doc|e]; [|reflexivity].
  destruct (spread (or_empty (opt_chain official doc))) as [officialPools|e]; [|reflexivity].
  destruct (spread (or_empty (opt_chain unOfficial doc))) as [unOfficialPools|e]; reflexivity.
Qed.

Lemma spread_not_iterable (f : field) (doc v : json) :
  opt_chain f doc = Some v -> not_iterable v = true ->
  exists msg, spread (or_empty (opt_chain f doc)) = Throw (TypeError msg).
Proof.
  intros -> Hv. destruct v; try discriminate Hv; simpl; eexists; reflexivity.
Qed.

(** X5. Whatever happens, [loadPoolKeys] makes exactly one request, the
    download of the registry URL, and leaves [connection] and [wallet] as
    they were. *)
Theorem loadPoolKeys_single_download (m : machine) :
  calls (snd (loadPoolKeys m)) = calls m ++ [fetch registry_url]
  /\ connection (this (snd (loadPoolKeys m))) = connection (this m)
  /\ wallet (this (snd (loadPoolKeys m))) = wallet (this m).
Proof.
  rewrite loadPoolKeys_run. cbv zeta.
  destruct (perform (fetch registry_url) (world m)) as [[resp|e] w]; [|repeat split].
  destruct (ok resp); simpl; [|repeat split].
  destruct (Response_json resp) as [doc|e]; [|repeat split].
  destruct (spread (or_empty (opt_chain official doc))); [|repeat split].
  destruct (spread (or_empty (opt_chain unOfficial doc))); repeat split.
Qed.

(** X6. [loadPoolKeys] assigns the pool list only when it runs to its end
    (it then resolves to [undefined]); on every other path, a failed or
    rejected download, a body that does not parse, a member that cannot be
    spread, the object is exactly as before. *)
Theorem loadPoolKeys_assigns_only_at_its_end (m : machine) :
  (fst (loadPoolKeys m) = Ok None ->
     exists pools, allPoolKeysJson (this (snd (loadPoolKeys m))) = Some pools)
  /\ (fst (loadPoolKeys m) <> Ok None -> this (snd (loadPoolKeys m)) = this m).
Proof.
  rewrite loadPoolKeys_run. cbv zeta.
  destruct (perform (fetch registry_url) (world m)) as [[resp|e] w];
    [|split; [discriminate|reflexivity]].
  destruct (ok resp); simpl; [|split; [discriminate|reflexivity]].
  destruct (Response_json resp) as [doc|e]; [|split; [discriminate|reflexivity]].
  destruct (spread (or_empty (opt_chain official doc)));
    [|split; [discriminate|reflexivity]].
  destruct (spread (or_empty (opt_chain unOfficial doc)));
    [|split; [discriminate|reflexivity]].
  simpl. split; [eauto|]. intros H. contradiction H. reflexivity.
Qed.

(** X7. What [loadPoolKeys] returns and the list it assigns depend on the
    world's answer only, not on the object: a reload replaces the previous
    list, it does not extend it. *)
Theorem loadPoolKeys_replaces_the_list (m m' : machine) (Hworld : world m' = world m) :
  fst (loadPoolKeys m') = fst (loadPoolKeys m)
  /\ (fst (loadPoolKeys m) = Ok None ->
        allPoolKeysJson (this (snd (loadPoolKeys m')))
          = allPoolKeysJson (this (snd (loadPoolKeys m)))).
Proof.
  rewrite !loadPoolKeys_run. cbv zeta. rewrite Hworld.
  destruct (perform (fetch registry_url) (world m)) as [[resp|e] w];
    [|split; [reflexivity|discriminate]].
  destruct (ok resp); simpl; [|split; [reflexivity|discriminate]].
  destruct (Response_json resp) as [doc|e]; [|split; [reflexivity|discriminate]].
  destruct (spread (or_empty (opt_chain official doc)));
    [|split; [reflexivity|discriminate]].
  destruct (spread (or_empty (opt_chain unOfficial doc)));
    [|split; [reflexivity|discriminate]].
  split; reflexivity.
Qed.

(** X8. When the downloaded document has an [official] or [unOfficial]
    member that is a boolean, a number or an object, [loadPoolKeys] throws a
    [TypeError] and the pool list stays as it was. *)
Theorem loadPoolKeys_member_not_iterable (m : machine) (resp : Response) (w1 : World)
    (doc v : json)
    (Hfetch : perform (fetch registry_url) (world m) = (Ok resp, w1))
    (Hok : ok resp = true)
    (Hdoc : Response_json resp = Ok doc)
    (Hmember : opt_chain official doc = Some v \/ opt_chain unOfficial doc = Some v)
    (Hv : not_iterable v = true) :
  exists msg,
    loadPoolKeys m =
      (Throw (TypeError msg),
       {| this := this m; world := w1; calls := calls m ++ [fetch registry_url] |}).
Proof.
  rewrite loadPoolKeys_run. cbv zeta. rewrite Hfetch, Hok, Hdoc. simpl.
  destruct Hmember as [Hm|Hm]; destruct (spread_not_iterable _ _ Hm Hv) as [msg Hmsg].
  - rewrite Hmsg. eexists. reflexivity.
  - rewrite Hmsg.
    destruct (spread (or_empty (opt_chain official doc))) as [l|[msg'|msg']] eqn:Hoff.
    + eexists. reflexivity.
    + eexists. reflexivity.
    + destruct (or_empty (opt_chain official doc)); discriminate Hoff.
Qed.

(** ** Loading, then looking up *)

Lemma loadPoolKeys_loaded (m : machine) (resp : Response) (w1 : World)
    (doc : json) (officialPools unOfficialPools : list json) :
  perform (fetch registry_url) (world m) = (Ok resp, w1) ->
  ok resp = true ->
  Response_json resp = Ok doc ->
  registry_array official doc = Some officialPools ->
  registry_array unOfficial doc = Some unOfficialPools ->
  allPoolKeysJson (this (snd (loadPoolKeys m))) = Some (officialPools ++ unOfficialPools).
Proof.
  intros Hfetch Hok Hdoc Hoff Hun.
  rewrite loadPoolKeys_run. cbv zeta. rewrite Hfetch, Hok, Hdoc. simpl.
  rewrite (spread_registry_array _ _ Hoff), (spread_registry_array _ _ Hun). reflexivity.
Qed.


(** X9. After a successful load, a pair served by an official pool is
    answered from the official array, whatever the unofficial array holds:
    official entries come first in the scan. *)
Theorem official_pools_take_precedence (mintA mintB : string) (m : machine)
    (resp : Response) (w1 : World) (doc : json)
    (officialPools unOfficialPools : list json) (i : json)
    (Hfetch : perform (fetch registry_url) (world m) = (Ok resp, w1))
    (Hok : ok resp = true)
    (Hdoc : Response_json resp = Ok doc)
    (Hofficial : registry_array official doc = Some officialPools)
    (HunOfficial : registry_array unOfficial doc = Some unOfficialPools)
    (Hslots : forallb not_null officialPools = true)
    (Hin : In i officialPools)
    (Hmatch : is_pool_for mintA mintB i) :
  exists found,
    In found officialPools /\ is_pool_for mintA mintB found
    /\ findPoolInfoForTokens mintA mintB (snd (loadPoolKeys m))
       = (bind_outcome (jsonInfo2PoolKeys found) (fun keys => Ok (Some keys)),
          snd (loadPoolKeys m)).
Proof.
  pose proof (loadPoolKeys_loaded m Hfetch Hok Hdoc Hofficial HunOfficial) as Hloaded.
  rewrite forallb_forall in Hslots. apply pool_callback_true in Hmatch.
  destruct (Array_find_first (pool_callback mintA mintB) officialPools i)
    as (found & Hscan & Hfin & Hcb); auto.
  { intros j Hj. apply pool_callback_total. auto. }
  exists found. split; [exact Hfin|]. split; [apply pool_callback_true; exact Hcb|].
  rewrite findPoolInfoForTokens_run, Hloaded, Array_find_app, Hscan.
  rewrite (pool_callback_truthy _ _ _ Hcb). reflexivity.
Qed.


(** ** Simulation *)

(** X11. [simulateTransaction] makes one request, a simulation signed by
    the wallet's payer; nothing is submitted, the node client's answer is the
    result and the object is left as it was. *)
Theorem simulateTransaction_single_simulation (tx : Transaction) (m : machine) :
  let simulation :=
    Connection_simulateTransaction (connection (this m)) tx [payer (wallet (this m))] in
  simulateTransaction tx m =
    (fst (perform simulation (world m)),
     {| this := this m;
        world := snd (perform simulation (world m));
        calls := calls m ++ [simulation] |})
  /\ forallb (fun r => match r with Connection_sendTransaction _ _ _ _ => false | _ => true end)
       [simulation] = true.
Proof.
  split; [|reflexivity].
  unfold simulateTransaction, bind, get_this, ret. rewrite external_run. simpl.
  destruct (perform _ (world m)) as [[answer|e] w]; reflexivity.
Qed.

(** ** Building the swap, step by step *)

Lemma calcAmountOut_calls (poolKeys : LiquidityPoolKeys) (rawAmountIn : number)
    (swapInDirection : bool) (m : machine) :
  exists sent,
    calls (snd (calcAmountOut poolKeys rawAmountIn swapInDirection m)) = calls m ++ sent
    /\ forallb builds_only sent = true
    /\ (length sent <= 2)%nat
    /\ forall swap, ~ In (Liquidity_makeSwapInstructionSimple swap) sent.
Proof.
  rewrite calcAmountOut_run. cbv zeta.
  destruct (perform (Liquidity_fetchInfo (connection (this m)) poolKeys) (world m))
    as [[poolInfo|e] w1].
  - destruct (TokenAmount_rejects _ _ _ rawAmountIn false) as [rejected|].
    { simpl. eexists. split; [reflexivity|]. split; [reflexivity|].
      split; [simpl; auto|]. intros swap [H|[]]. discriminate H. }
    match goal with |- context [perform (Liquidity_computeAmountOut ?p) w1] =>
      destruct (perform (Liquidity_computeAmountOut p) w1) as [[computed|e] w2]
    end; simpl; eexists; (split; [reflexivity|]); (split; [reflexivity|]);
      (split; [simpl; auto|]); intros swap [H|[H|[]]]; discriminate H.
  - simpl. eexists. split; [reflexivity|]. split; [reflexivity|].
    split; [simpl; auto|]. intros swap [H|[]]. discriminate H.
Qed.

(** The method after its quote. *)
Lemma getSwapTransaction_run (fromToken toToken : string) (amount : number)
    (poolKeys : LiquidityPoolKeys) (maxLamports : option number) (m : machine) :
  getSwapTransaction fromToken toToken amount poolKeys maxLamports m =
    match calcAmountOut poolKeys amount false m with
    | (Throw e, m1) => (Throw e, m1)
    | (Ok quote, m1) =>
        match new_PublicKey fromToken with
        | Throw e => (Throw e, m1)
        | Ok fromKey =>
            match new_PublicKey toToken with
            | Throw e => (Throw e, m1)
            | Ok toKey =>
                let account key :=
                  {| programId := TOKEN_PROGRAM_ID;
                     pubkey := PublicKey_default;
                     accountInfo := {| mint := key; account_amount := 0 |} |} in
                let build :=
                  Liquidity_makeSwapInstructionSimple
                    {| sp_connection := connection (this m1);
                       sp_makeTxVersion := 1;
                       sp_poolKeys := poolKeys;
                       sp_userKeys :=
                         {| tokenAccounts := [account fromKey; account toKey];
                            owner := publicKey (wallet (this m1)) |};
                       sp_amountIn := amountIn quote;
                       sp_amountOut := minAmountOut quote;
                       sp_fixedSide := "in";
                       sp_config := {| bypassAssociatedCheck := false |};
                       sp_computeBudgetConfig :=
                         {| microLamports :=
                              match maxLamports with Some n => n | None => 100000 end |} |} in
                let hash := Connection_getLatestBlockhash (connection (this m1)) in
                match perform build (world m1) with
                | (Throw e, w3) =>
                    (Throw e, {| this := this m1; world := w3; calls := calls m1 ++ [build] |})
                | (Ok swapTransaction, w3) =>
                    match perform hash w3 with
                    | (Throw e, w4) =>
                        (Throw e,
                         {| this := this m1; world := w4; calls := calls m1 ++ [build; hash] |})
                    | (Ok recent, w4) =>
                        let after :=
                          {| this := this m1; world := w4;
                             calls := calls m1 ++ [build; hash] |} in
                        match innerTransactions swapTransaction with
                        | [] => (Throw (TypeError "Cannot read properties of undefined"), after)
                        | first :: _ =>
                            match Transaction_add
                                    (new_Transaction (blockhash recent)
                                       (lastValidBlockHeight recent)
                                       (publicKey (wallet (this m1))))
                                    (filter_Boolean (instructions first)) with
                            | Ok tx => (Ok tx, after)
                            | Throw e => (Throw e, after)
                            end
                        end
                    end
                end
            end
        end
    end.
Proof.
  unfold getSwapTransaction. unfold bind at 1.
  destruct (calcAmountOut poolKeys amount false m) as [[quote|e] m1]; [|reflexivity].
  unfold bind, lift, getTokenAccountByOwnerAndMint, ret, get_this, throw.
  destruct (new_PublicKey fromToken) as [fromKey|e]; [|reflexivity].
  destruct (new_PublicKey toToken) as [toKey|e]; [|reflexivity].
  rewrite external_run. cbv zeta.
  match goal with |- context [perform ?r (world m1)] =>
    destruct (perform r (world m1)) as [[swapTransaction|e] w3] end; simpl; [|reflexivity].
  rewrite external_run. simpl.
  match goal with |- context [perform ?r w3] =>
    destruct (perform r w3) as [[recent|e] w4] end; simpl;
    rewrite <- app_assoc; simpl; [|reflexivity].
  destruct (innerTransactions swapTransaction) as [|first others]; [reflexivity|].
  destruct (Transaction_add _ _); reflexivity.
Qed.

(** X12. Building a swap transaction only reads: [getSwapTransaction]
    makes at most four requests, each to the SDK's pool info, quote or swap
    builder or to the node's latest-blockhash query; it never downloads the
    registry, submits or simulates, and it leaves the object as it was. *)
Theorem getSwapTransaction_builds_only (fromToken toToken : string) (amount : number)
    (poolKeys : LiquidityPoolKeys) (maxLamports : option number) (m : machine) :
  exists sent,
    calls (snd (getSwapTransaction fromToken toToken amount poolKeys maxLamports m))
      = calls m ++ sent
    /\ forallb builds_only sent = true
    /\ (length sent <= 4)%nat
    /\ this (snd (getSwapTransaction fromToken toToken amount poolKeys maxLamports m))
       = this m.
Proof.
  rewrite getSwapTransaction_run.
  destruct (calcAmountOut_calls poolKeys amount false m) as (sent0 & Hcalls & Hkind & Hlen & _).
  pose proof (calcAmountOut_preserves_this poolKeys amount false m) as Hthis.
  destruct (calcAmountOut poolKeys amount false m) as [[quote|e] m1]; simpl in Hcalls, Hthis.
  2:{ exists sent0. simpl. repeat split; auto; lia. }
  destruct (new_PublicKey fromToken) as [fromKey|e].
  2:{ exists sent0. simpl. repeat split; auto; lia. }
  destruct (new_PublicKey toToken) as [toKey|e].
  2:{ exists sent0. simpl. repeat split; auto; lia. }
  cbv zeta.
  match goal with |- context [perform ?r (world m1)] =>
    destruct (perform r (world m1)) as [[swapTransaction|e] w3] end.
  2:{ simpl. rewrite Hcalls, <- app_assoc. eexists. split; [reflexivity|].
      rewrite forallb_app, Hkind, length_app. simpl. repeat split; auto; lia. }
  match goal with |- context [perform ?r w3] =>
    destruct (perform r w3) as [[recent|e] w4] end.
  2:{ simpl. rewrite Hcalls, <- app_assoc. eexists. split; [reflexivity|].
      rewrite forallb_app, Hkind, length_app. simpl. repeat split; auto; lia. }
  destruct (innerTransactions swapTransaction) as [|first others];
    [|destruct (Transaction_add _ _) as [tx|e]];
    (simpl; rewrite Hcalls, <- app_assoc; eexists; split; [reflexivity|];
     rewrite forallb_app, Hkind, length_app; simpl; repeat split; auto; lia).
Qed.

(** X13. A transaction returned by [getSwapTransaction] is a new
    transaction carrying the blockhash and last valid block height just
    fetched, with the wallet's public key as fee payer, to which the filled
    instruction slots of the first inner transaction of the SDK's answer
    were added, in order; further inner transactions are not used. *)
Theorem getSwapTransaction_result (fromToken toToken : string) (amount : number)
    (poolKeys : LiquidityPoolKeys) (maxLamports : option number) (m : machine)
    (tx : Transaction)
    (Hreturned : fst (getSwapTransaction fromToken toToken amount poolKeys maxLamports m)
                 = Ok tx) :
  exists swap w swapTransaction w3 recent w4 first others,
    perform (Liquidity_makeSwapInstructionSimple swap) w = (Ok swapTransaction, w3)
    /\ perform (Connection_getLatestBlockhash (connection (this m))) w3 = (Ok recent, w4)
    /\ innerTransactions swapTransaction = first :: others
    /\ Transaction_add
         (new_Transaction (blockhash recent) (lastValidBlockHeight recent)
            (publicKey (wallet (this m))))
         (filter_Boolean (instructions first))
       = Ok tx.
Proof.
  rewrite getSwapTransaction_run in Hreturned.
  pose proof (calcAmountOut_preserves_this poolKeys amount false m) as Hthis.
  destruct (calcAmountOut poolKeys amount false m) as [[quote|e] m1];
    simpl in Hthis; [|discriminate Hreturned].
  destruct (new_PublicKey fromToken) as [fromKey|e]; [|discriminate Hreturned].
  destruct (new_PublicKey toToken) as [toKey|e]; [|discriminate Hreturned].
  cbv zeta in Hreturned. rewrite Hthis in Hreturned.
  match type of Hreturned with context [perform (Liquidity_makeSwapInstructionSimple ?p) (world m1)] =>
    exists p, (world m1);
    destruct (perform (Liquidity_makeSwapInstructionSimple p) (world m1))
      as [[swapTransaction|e] w3]
  end; [|discriminate Hreturned].
  exists swapTransaction, w3.
  destruct (perform (Connection_getLatestBlockhash (connection (this m))) w3)
    as [[recent|e] w4]; [|discriminate Hreturned].
  exists recent, w4.
  destruct (innerTransactions swapTransaction) as [|first others]; [discriminate Hreturned|].
  exists first, others.
  destruct (Transaction_add _ _) as [tx'|e] eqn:Hadd; [|discriminate Hreturned].
  simpl in Hreturned. injection Hreturned as ->. auto.
Qed.


(** X15. Every swap request [getSwapTransaction] sends is a version 1,
    fixed-side [in] request on the object's connection, owned by the wallet's
    public key, with the associated-account check on and the compute budget
    set to [maxLamports], or to 100000 when that argument is left out; its
    two token accounts are the placeholder accounts of the parsed
    [fromToken] and [toToken], in that order. *)
Theorem getSwapTransaction_swap_request (fromToken toToken : string) (amount : number)
    (poolKeys : LiquidityPoolKeys) (maxLamports : option number) (m : machine) :
  exists sent,
    calls (snd (getSwapTransaction fromToken toToken amount poolKeys maxLamports m))
      = calls m ++ sent
    /\ forall swap, In (Liquidity_makeSwapInstructionSimple swap) sent ->
         sp_connection swap = connection (this m)
         /\ sp_makeTxVersion swap = 1
         /\ sp_fixedSide swap = "in"
         /\ sp_config swap = {| bypassAssociatedCheck := false |}
         /\ microLamports (sp_computeBudgetConfig swap)
            = match maxLamports with Some n => n | None => 100000 end
         /\ owner (sp_userKeys swap) = publicKey (wallet (this m))
         /\ exists fromKey toKey,
              new_PublicKey fromToken = Ok fromKey
              /\ new_PublicKey toToken = Ok toKey
              /\ tokenAccounts (sp_userKeys swap)
                 = [ {| programId := TOKEN_PROGRAM_ID;
                        pubkey := PublicKey_default;
                        accountInfo := {| mint := fromKey; account_amount := 0 |} |};
                     {| programId := TOKEN_PROGRAM_ID;
                        pubkey := PublicKey_default;
                        accountInfo := {| mint := toKey; account_amount := 0 |} |} ].
Proof.
  rewrite getSwapTransaction_run.
  destruct (calcAmountOut_calls poolKeys amount false m) as (sent0 & Hcalls & _ & _ & Hnone).
  pose proof (calcAmountOut_preserves_this poolKeys amount false m) as Hthis.
  destruct (calcAmountOut poolKeys amount false m) as [[quote|e] m1]; simpl in Hcalls, Hthis.
  2:{ exists sent0. split; [exact Hcalls|]. intros swap Hin. destruct (Hnone _ Hin). }
  destruct (new_PublicKey fromToken) as [fromKey|e].
  2:{ exists sent0. split; [exact Hcalls|]. intros swap Hin. destruct (Hnone _ Hin). }
  destruct (new_PublicKey toToken) as [toKey|e].
  2:{ exists sent0. split; [exact Hcalls|]. intros swap Hin. destruct (Hnone _ Hin). }
  cbv zeta. rewrite Hthis.
  assert (Hshape : forall build tail swap,
             build = Liquidity_makeSwapInstructionSimple
                       {| sp_connection := connection (this m);
                          sp_makeTxVersion := 1;
                          sp_poolKeys := poolKeys;
                          sp_userKeys :=
                            {| tokenAccounts :=
                                 [ {| programId := TOKEN_PROGRAM_ID;
                                      pubkey := PublicKey_default;
                                      accountInfo := {| mint := fromKey; account_amount := 0 |} |};
                                   {| programId := TOKEN_PROGRAM_ID;
                                      pubkey := PublicKey_default;
                                      accountInfo := {| mint := toKey; account_amount := 0 |} |} ];
                               owner := publicKey (wallet (this m)) |};
                          sp_amountIn := amountIn quote;
                          sp_amountOut := minAmountOut quote;
                          sp_fixedSide := "in";
                          sp_config := {| bypassAssociatedCheck := false |};
                          sp_computeBudgetConfig :=
                            {| microLamports :=
                                 match maxLamports with Some n => n | None => 100000 end |} |} ->
             (tail = [] \/ tail = [Connection_getLatestBlockhash (connection (this m))]) ->
             In (Liquidity_makeSwapInstructionSimple swap) (sent0 ++ build :: tail) ->
             sp_connection swap = connection (this m)
             /\ sp_makeTxVersion swap = 1
             /\ sp_fixedSide swap = "in"
             /\ sp_config swap = {| bypassAssociatedCheck := false |}
             /\ microLamports (sp_computeBudgetConfig swap)
                = match maxLamports with Some n => n | None => 100000 end
             /\ owner (sp_userKeys swap) = publicKey (wallet (this m))
             /\ exists fromKey' toKey',
                  Ok fromKey = Ok fromKey'
                  /\ Ok toKey = Ok toKey'
                  /\ tokenAccounts (sp_userKeys swap)
                     = [ {| programId := TOKEN_PROGRAM_ID;
                            pubkey := PublicKey_default;
                            accountInfo := {| mint := fromKey'; account_amount := 0 |} |};
                         {| programId := TOKEN_PROGRAM_ID;
                            pubkey := PublicKey_default;
                            accountInfo := {| mint := toKey'; account_amount := 0 |} |} ]).
  { intros build tail swap -> Htail Hin. apply in_app_or in Hin.
    destruct Hin as [Hin|[Hin|Hin]].
    - destruct (Hnone _ Hin).
    - injection Hin as <-. simpl. repeat split. exists fromKey, toKey. auto.
    - destruct Htail as [->| ->]; [destruct Hin|].
      destruct Hin as [Hin|[]]. discriminate Hin. }
  match goal with |- context [perform ?r (world m1)] =>
    destruct (perform r (world m1)) as [[swapTransaction|e] w3] end.
  2:{ simpl. rewrite Hcalls, <- app_assoc. eexists. split; [reflexivity|].
      intros swap Hin. eapply Hshape; [reflexivity| |exact Hin]. auto. }
  match goal with |- context [perform ?r w3] =>
    destruct (perform r w3) as [[recent|e] w4] end.
  2:{ simpl. rewrite Hcalls, <- app_assoc. eexists. split; [reflexivity|].
      intros swap Hin. eapply Hshape; [reflexivity| |exact Hin]. auto. }
  destruct (innerTransactions swapTransaction) as [|first others];
    [|destruct (Transaction_add _ _) as [tx|e]];
    (simpl; rewrite Hcalls, <- app_assoc; eexists; split; [reflexivity|];
     intros swap Hin; eapply Hshape; [reflexivity| |exact Hin]; auto).
Qed.

(** ** Quotes, field by field *)

(** X16. A quote returned by [calcAmountOut] is the SDK's answer to its one
    computation request with nothing recomputed: output, minimum output,
    current price, execution price, price impact and fee are the SDK's, and
    [amountIn] is the input amount of the request. *)
Theorem calcAmountOut_passes_the_answer_through (poolKeys : LiquidityPoolKeys)
    (rawAmountIn : number) (swapInDirection : bool) (m : machine) (quote : Quote)
    (Hreturned : fst (calcAmountOut poolKeys rawAmountIn swapInDirection m) = Ok quote) :
  exists params w computed w',
    perform (Liquidity_computeAmountOut params) w = (Ok computed, w')
    /\ cp_poolKeys params = poolKeys
    /\ quote = {| amountIn := cp_amountIn params;
                  amountOut := r_amountOut computed;
                  minAmountOut := r_minAmountOut computed;
                  currentPrice := r_currentPrice computed;
                  executionPrice := r_executionPrice computed;
                  priceImpact := r_priceImpact computed;
                  fee := r_fee computed |}.
Proof.
  rewrite calcAmountOut_run in Hreturned. cbv zeta in Hreturned.
  destruct (perform (Liquidity_fetchInfo (connection (this m)) poolKeys) (world m))
    as [[poolInfo|e] w1]; [|discriminate Hreturned].
  destruct (TokenAmount_rejects _ _ _ rawAmountIn false) as [rejected|];
    [discriminate Hreturned|].
  match type of Hreturned with context [perform (Liquidity_computeAmountOut ?p) w1] =>
    exists p, w1;
    destruct (perform (Liquidity_computeAmountOut p) w1) as [[computed|e] w2]
  end; [|discriminate Hreturned].
  exists computed, w2. simpl in Hreturned. injection Hreturned as <-. auto.
Qed.

End Coverage.

(** * The further properties on the concrete SDK and nodes *)


Lemma findPoolInfoForTokens_null_slot_witness :
  exists msg,
    findPoolInfoForTokens SOL USDC
      (demo_machine (Some ([demo_pool RAY USDC] ++ JNull :: [demo_pool SOL USDC])) true)
    = (Throw (TypeError msg),
       demo_machine (Some ([demo_pool RAY USDC] ++ JNull :: [demo_pool SOL USDC])) true).
Proof.
  apply (@findPoolInfoForTokens_null_slot demo_sdk demo_node SOL USDC
           [demo_pool RAY USDC] [demo_pool SOL USDC]).
  - reflexivity.
  - reflexivity.
  - repeat constructor. intros [[H _]|[H _]]; vm_compute in H; discriminate H.
Defined.

Lemma constructor_Ok_iff_witness :
  constructor "https://api.mainnet-beta.solana.com" "payer" = Ok (demo_client None).
Proof.
  apply (proj2 (@constructor_Ok_iff demo_sdk "https://api.mainnet-beta.solana.com" "payer"
                  (demo_client None))).
  exists "https://api.mainnet-beta.solana.com", (list_byte_of_string "payer"), "payer".
  repeat split.
Defined.

Lemma lookup_before_load_throws_witness :
  constructor "https://api.mainnet-beta.solana.com" "payer" = Ok (demo_client None)
  /\ exists msg,
       findPoolInfoForTokens SOL USDC (demo_machine None true)
       = (Throw (TypeError msg), demo_machine None true).
Proof.
  split; [reflexivity|].
  exact (@lookup_before_load_throws demo_sdk demo_node
           "https://api.mainnet-beta.solana.com" "payer" SOL USDC
           (demo_client None) true [] eq_refl).
Defined.

Lemma loadPoolKeys_assigns_only_at_its_end_witness :
  this (snd (loadPoolKeys (demo_machine (Some [demo_pool RAY USDC]) false)))
    = demo_client (Some [demo_pool RAY USDC])
  /\ exists pools,
       allPoolKeysJson (this (snd (loadPoolKeys (demo_machine None true)))) = Some pools.
Proof.
  split.
  - apply (proj2 (@loadPoolKeys_assigns_only_at_its_end demo_sdk demo_node
                    (demo_machine (Some [demo_pool RAY USDC]) false))).
    vm_compute. discriminate.
  - apply (proj1 (@loadPoolKeys_assigns_only_at_its_end demo_sdk demo_node
                    (demo_machine None true))).
    reflexivity.
Defined.

Lemma loadPoolKeys_replaces_the_list_witness :
  allPoolKeysJson (this (snd (loadPoolKeys (demo_machine (Some [demo_pool RAY SOL]) true))))
  = allPoolKeysJson (this (snd (loadPoolKeys (demo_machine None true)))).
Proof.
  apply (proj2 (@loadPoolKeys_replaces_the_list demo_sdk demo_node
                  (demo_machine None true) (demo_machine (Some [demo_pool RAY SOL]) true)
                  eq_refl)).
  reflexivity.
Defined.

Lemma loadPoolKeys_member_not_iterable_witness :
  let answer :=
    {| script_fetch :=
         Ok {| ok := true;
               Response_json := Ok (JObject [("official", JArray []);
                                             ("unOfficial", JNumber 5)]) |};
       script_swap := Throw (SdkError "unused") |} in
  exists msg,
    loadPoolKeys (scripted_machine (Some [demo_pool SOL USDC]) answer)
    = (Throw (TypeError msg),
       @Build_machine demo_sdk scripted_node (demo_client (Some [demo_pool SOL USDC]))
         answer [fetch registry_url]).
Proof.
  intros answer.
  apply (@loadPoolKeys_member_not_iterable demo_sdk scripted_node
           (scripted_machine (Some [demo_pool SOL USDC]) answer) _ answer _ (JNumber 5)
           eq_refl eq_refl eq_refl (or_intror eq_refl) eq_refl).
Defined.

Lemma official_pools_take_precedence_witness :
  exists found,
    In found [demo_pool SOL USDC] /\ is_pool_for USDC SOL found
    /\ findPoolInfoForTokens USDC SOL (snd (loadPoolKeys (demo_machine None true)))
       = (bind_outcome (jsonInfo2PoolKeys found) (fun keys => Ok (Some keys)),
          snd (loadPoolKeys (demo_machine None true))).
Proof.
  apply (@official_pools_take_precedence demo_sdk demo_node USDC SOL
           (demo_machine None true) _ true demo_registry
           [demo_pool SOL USDC] [demo_pool RAY USDC; demo_pool SOL USDC]
           (demo_pool SOL USDC) eq_refl eq_refl eq_refl eq_refl eq_refl eq_refl).
  - left. reflexivity.
  - right. split; reflexivity.
Defined.


Lemma getSwapTransaction_result_witness :
  fst (getSwapTransaction SOL USDC 2 (SOL, USDC) None (demo_machine None true))
    = Ok ["swapBaseIn"]
  /\ exists swap w swapTransaction w3 recent w4 first others,
       perform (Liquidity_makeSwapInstructionSimple swap) w = (Ok swapTransaction, w3)
       /\ perform (Connection_getLatestBlockhash
                     (connection (this (demo_machine None true)))) w3 = (Ok recent, w4)
       /\ innerTransactions swapTransaction = first :: others
       /\ Transaction_add
            (new_Transaction (blockhash recent) (lastValidBlockHeight recent)
               (publicKey (wallet (this (demo_machine None true)))))
            (filter_Boolean (instructions first))
          = Ok ["swapBaseIn"].
Proof.
  split; [reflexivity|].
  exact (@getSwapTransaction_result demo_sdk demo_node SOL USDC 2 (SOL, USDC) None
           (demo_machine None true) ["swapBaseIn"] eq_refl).
Defined.


Lemma getSwapTransaction_swap_request_witness :
  exists swap,
    In (Liquidity_makeSwapInstructionSimple swap)
       (calls (snd (getSwapTransaction SOL USDC 2 (SOL, USDC) None (demo_machine None true))))
    /\ microLamports (sp_computeBudgetConfig swap) = 100000
    /\ owner (sp_userKeys swap) = "payer".
Proof.
  destruct (@getSwapTransaction_swap_request demo_sdk demo_node SOL USDC 2 (SOL, USDC) None
              (demo_machine None true)) as (sent & Hcalls & Hall).
  simpl app in Hcalls. rewrite Hcalls.
  assert (Hin : exists swap, In (Liquidity_makeSwapInstructionSimple swap) sent).
  { rewrite <- Hcalls. eexists. vm_compute. right. right. left. reflexivity. }
  destruct Hin as (swap & Hin). exists swap. split; [exact Hin|].
  destruct (Hall swap Hin) as (_ & _ & _ & _ & Hbudget & Howner & _).
  split; [exact Hbudget | exact Howner].
Defined.

Lemma calcAmountOut_passes_the_answer_through_witness :
  exists quote params w computed w',
    fst (calcAmountOut (SOL, USDC) 2 true (demo_machine None true)) = Ok quote
    /\ perform (Liquidity_computeAmountOut params) w = (Ok computed, w')
    /\ fee quote = r_fee computed.
Proof.
  destruct (@calcAmountOut_passes_the_answer_through demo_sdk demo_node (SOL, USDC) 2 true
              (demo_machine None true) _ eq_refl)
    as (params & w & computed & w' & Hrun & _ & Hquote).
  eexists _, params, w, computed, w'. split; [reflexivity|]. split; [exact Hrun|].
  rewrite Hquote. reflexivity.
Defined.
